(** * PDF QnA app: a shallow embedding of [main.py]

    [main.py] is a Streamlit script: every interaction of the user (a click
    on "Upload & Process", a click on "Ask") runs the script once from its
    first line to its last.  What survives from one run to the next is
    [st.session_state], the local file system, the remote Astra DB
    collection and the state of the random generator behind [uuid4]; local
    variables of the script (the dictionary [store] among them) do not.

    The script is embedded as a computation in a state-and-exception monad
    over that persistent state.  The services the script calls (PDF parser,
    embedding model, vector search, chat model, uuid generator) and the
    failures of those calls are the fields of the class [Services]. *)

From stdpp Require Import gmap strings list fin_maps pretty.
From Stdlib Require Import Ascii.
From Stdlib Require QArith.

(** ** Data of the script *)

(** [Document(page_content=t)]: the script reads and writes no other field. *)
Record Document := { page_content : string }.

(** A message of a [ChatMessageHistory]. *)
Inductive message :=
| HumanMessage (content : string)
| AIMessage (content : string)
| SystemMessage (content : string).

(** An exception, by the text it carries. *)
Definition exn := string.

(** Arguments of [ChatMistralAI(...)], lines 78-81. *)
Record ChatMistralAI := {
  model : string;
  temperature : QArith_base.Q;
  max_retries : nat;
}.

(** Arguments of [vector_store.as_retriever(...)], line 90: the search type
    and the dictionary [search_kwargs]. *)
Record retriever_config := {
  search_type : string;
  search_kwargs : gmap string nat;
}.

(** The calls of the script and of the chain it builds, as the log of a run
    records them. *)
Inductive event :=
| OpenWb (path : string)
| FileWrite (path : string) (data : list Byte.byte)
| PyPDFLoaderLoad (path : string)
| SplitText (chunk_size chunk_overlap : nat) (text : string)
| Uuid4
| AstraDBVectorStoreInit (collection_name embedding_model : string)
| AddDocuments (collection_name : string) (documents : list Document)
    (ids : list string)
| RunnableInvoke (session_id input : string)
| RagChain (input : string) (history : list message)
| Retrieve (collection_name : string) (cfg : retriever_config)
    (query : string)
| ChatCompletion (llm : ChatMistralAI) (prompt : list message).

Global Instance Document_eq_dec : EqDecision Document.
Proof. solve_decision. Defined.
Global Instance message_eq_dec : EqDecision message.
Proof. solve_decision. Defined.

(** ** The text splitter

    [RecursiveCharacterTextSplitter] of [langchain_text_splitters], as the
    script builds it on line 52: default separators (blank line, line
    break, space, empty string), [keep_separator=True],
    [strip_whitespace=True], [length_function=len].  Characters are the
    code points below 256. *)

Module RecursiveCharacterTextSplitter.

Definition nl : string := String (ascii_of_nat 10) "".

(** [str.isspace] on one character. *)
Definition isspace (c : ascii) : bool :=
  let n := nat_of_ascii c in
  ((9 <=? n) && (n <=? 13)) || ((28 <=? n) && (n <=? 32))
  || (n =? 133) || (n =? 160).

Fixpoint lstrip (s : string) : string :=
  match s with
  | String c s' => if isspace c then lstrip s' else s
  | EmptyString => EmptyString
  end.

(** [str.strip()] *)
Definition strip (s : string) : string :=
  String.rev (lstrip (String.rev (lstrip s))).

(** [re.search(re.escape(sep), text)] finds a match. *)
Fixpoint contains (sep text : string) : bool :=
  String.prefix sep text ||
  match text with
  | String _ text' => contains sep text'
  | EmptyString => false
  end.

(** The pieces between the occurrences of [sep], each occurrence kept at
    the start of the piece after it.  [skip] counts the characters of a
    matched occurrence still to pass, [cur] holds the piece being read,
    last character first. *)
Fixpoint split_keep (sep text : string) (skip : nat) (cur : string)
    : list string :=
  match text with
  | EmptyString => [String.rev cur]
  | String c text' =>
      match skip with
      | S k => split_keep sep text' k (String c cur)
      | 0 =>
          if String.prefix sep text
          then String.rev cur
               :: split_keep sep text' (String.length sep - 1) (String c "")
          else split_keep sep text' 0 (String c cur)
      end
  end.

(** [list(text)] *)
Fixpoint chars (text : string) : list string :=
  match text with
  | EmptyString => []
  | String c text' => String c "" :: chars text'
  end.

(** [_split_text_with_regex(text, separator, keep_separator=True)] *)
Definition _split_text_with_regex (text separator : string) : list string :=
  filter (λ s, s ≠ "")
    (if decide (separator = "") then chars text
     else split_keep separator text 0 "").

(** [_join_docs(docs, separator)] *)
Definition _join_docs (docs : list string) (separator : string)
    : option string :=
  let text := strip (String.concat separator docs) in
  if decide (text = "") then None else Some text.

(** The [while] loop of [_merge_splits]: pieces leave [current_doc] from the
    front. *)
Fixpoint pop_front (chunk_size chunk_overlap separator_len _len : nat)
    (current_doc : list string) (total : nat) : list string * nat :=
  match current_doc with
  | [] => ([], total)
  | d0 :: rest =>
      if (chunk_overlap <? total)
         || ((chunk_size <?
                total + _len
                + (if 0 <? length current_doc then separator_len else 0))
             && (0 <? total))
      then pop_front chunk_size chunk_overlap separator_len _len rest
             (total - (String.length d0
                       + (if 1 <? length current_doc then separator_len
                          else 0)))
      else (current_doc, total)
  end.

(** One turn of the [for] loop of [_merge_splits], on the triple
    [(docs, current_doc, total)]. *)
Definition merge_step (chunk_size chunk_overlap : nat) (separator : string)
    (st : list string * list string * nat) (d : string)
    : list string * list string * nat :=
  let '(docs, current_doc, total) := st in
  let separator_len := String.length separator in
  let _len := String.length d in
  let '(docs, current_doc, total) :=
    if chunk_size <?
         total + _len + (if 0 <? length current_doc then separator_len else 0)
    then
      match current_doc with
      | [] => (docs, current_doc, total)
      | _ :: _ =>
          let docs := docs ++ option_list (_join_docs current_doc separator) in
          let '(current_doc, total) :=
            pop_front chunk_size chunk_overlap separator_len _len current_doc
              total in
          (docs, current_doc, total)
      end
    else (docs, current_doc, total) in
  let current_doc := current_doc ++ [d] in
  (docs, current_doc,
   total + (_len + (if 1 <? length current_doc then separator_len else 0))).

Definition _merge_splits (chunk_size chunk_overlap : nat)
    (splits : list string) (separator : string) : list string :=
  let '(docs, current_doc, _) :=
    foldl (merge_step chunk_size chunk_overlap separator) ([], [], 0) splits in
  docs ++ option_list (_join_docs current_doc separator).

(** One turn of the [for] loop of [_split_text], on the pair
    [(final_chunks, _good_splits)].  [recur] is [None] when
    [new_separators] is empty and the recursive call otherwise. *)
Definition split_step (chunk_size chunk_overlap : nat)
    (recur : option (string → list string))
    (st : list string * list string) (s : string)
    : list string * list string :=
  let '(final_chunks, _good_splits) := st in
  if String.length s <? chunk_size then (final_chunks, _good_splits ++ [s])
  else
    let final_chunks :=
      match _good_splits with
      | [] => final_chunks
      | _ :: _ =>
          final_chunks ++ _merge_splits chunk_size chunk_overlap _good_splits ""
      end in
    match recur with
    | None => (final_chunks ++ [s], [])
    | Some f => (final_chunks ++ f s, [])
    end.

Definition split_with (chunk_size chunk_overlap : nat) (separator : string)
    (recur : option (string → list string)) (text : string) : list string :=
  let splits := _split_text_with_regex text separator in
  let '(final_chunks, _good_splits) :=
    foldl (split_step chunk_size chunk_overlap recur) ([], []) splits in
  match _good_splits with
  | [] => final_chunks
  | _ :: _ =>
      final_chunks ++ _merge_splits chunk_size chunk_overlap _good_splits ""
  end.

(** [_split_text(text, separators)] for the separators [s :: rest]: the
    first separator that occurs in the text is used, the ones after it are
    left for the pieces that are still too long. *)
Fixpoint _split_text (chunk_size chunk_overlap : nat) (s : string)
    (rest : list string) (text : string) {struct rest} : list string :=
  if decide (s = "") then split_with chunk_size chunk_overlap "" None text
  else if contains s text then
    split_with chunk_size chunk_overlap s
      match rest with
      | [] => None
      | r :: rest' => Some (_split_text chunk_size chunk_overlap r rest')
      end
      text
  else
    match rest with
    | [] => split_with chunk_size chunk_overlap s None text
    | r :: rest' => _split_text chunk_size chunk_overlap r rest' text
    end.

(** [RecursiveCharacterTextSplitter(chunk_size=..., chunk_overlap=...)
    .split_text(text)] *)
Definition split_text (chunk_size chunk_overlap : nat) (text : string)
    : list string :=
  _split_text chunk_size chunk_overlap (nl +:+ nl) [nl; " "; ""] text.

End RecursiveCharacterTextSplitter.

(** ** The chunking rule as the specification words it

    "Greedy fixed-window with overlap": a window of [chunk_size] characters
    is cut, the next window starts [chunk_size - chunk_overlap] characters
    after the start of the one before, and the window that reaches the end
    of the text is the last.  Where the cuts fall depends on the length of
    the text only. *)





(** ** Texts the splitter cuts at a separator *)





(** ** The services behind the calls *)

Class Services := {
  (** state of the random generator and the type of embedding vectors *)
  rng : Type;
  vector : Type;
  (** [uuid4()], rendered by [str] *)
  uuid4 : rng → string * rng;
  (** whether a call fails, given the calls made before it *)
  fault : list event → event → option exn;
  (** the pages [PyPDFLoader] extracts from the bytes of a file *)
  pdf_pages : list Byte.byte → list Document;
  (** [splitter.split_text] of a splitter built with [chunk_size] and
      [chunk_overlap] *)
  split_text : nat → nat → string → list string;
  (** the embedding model "mistral-embed" *)
  embed : string → vector;
  (** how many of the documents of a failing [add_documents] were written
      before it failed *)
  written_before_failure : list event → nat;
  (** the search of the vector store over the stored entries *)
  search : gmap string (string * vector) → retriever_config → vector →
           list Document;
  (** the completion of the chat model *)
  complete : ChatMistralAI → list message → string;
}.

(** ** State kept between runs *)

Section App.
Context `{Services}.

Record world := {
  (** [st.session_state.vector_ready]; [None] when the key is absent *)
  vector_ready : option bool;
  (** [st.session_state.chat_history] *)
  chat_history : option (list (string * string));
  (** local files: path to contents *)
  files : gmap string (list Byte.byte);
  (** the collection "pdf_store": identifier to (text, vector) *)
  pdf_store : gmap string (string * vector);
  (** the random generator *)
  entropy : rng;
  (** the texts the current run has passed to [st.success] (line 67),
      [st.markdown] (lines 151-152) and [st.info] (line 154), in the order
      of the calls and as they were passed *)
  screen : list string;
  (** calls made so far, oldest first *)
  trace : list event;
}.

Definition set_vector_ready (b : option bool) (w : world) : world :=
  {| vector_ready := b; chat_history := chat_history w; files := files w;
     pdf_store := pdf_store w; entropy := entropy w; screen := screen w;
     trace := trace w |}.
Definition set_chat_history (h : option (list (string * string)))
    (w : world) : world :=
  {| vector_ready := vector_ready w; chat_history := h; files := files w;
     pdf_store := pdf_store w; entropy := entropy w; screen := screen w;
     trace := trace w |}.
Definition set_files (f : gmap string (list Byte.byte)) (w : world) : world :=
  {| vector_ready := vector_ready w; chat_history := chat_history w;
     files := f; pdf_store := pdf_store w; entropy := entropy w;
     screen := screen w; trace := trace w |}.
Definition set_pdf_store (s : gmap string (string * vector)) (w : world)
    : world :=
  {| vector_ready := vector_ready w; chat_history := chat_history w;
     files := files w; pdf_store := s; entropy := entropy w;
     screen := screen w; trace := trace w |}.
Definition set_entropy (r : rng) (w : world) : world :=
  {| vector_ready := vector_ready w; chat_history := chat_history w;
     files := files w; pdf_store := pdf_store w; entropy := r;
     screen := screen w; trace := trace w |}.
Definition set_screen (s : list string) (w : world) : world :=
  {| vector_ready := vector_ready w; chat_history := chat_history w;
     files := files w; pdf_store := pdf_store w; entropy := entropy w;
     screen := s; trace := trace w |}.
Definition set_trace (t : list event) (w : world) : world :=
  {| vector_ready := vector_ready w; chat_history := chat_history w;
     files := files w; pdf_store := pdf_store w; entropy := entropy w;
     screen := screen w; trace := t |}.

(** ** The monad: state that survives an exception *)

Inductive outcome (A : Type) :=
| Return (a : A)
| Raise (e : exn).
Global Arguments Return {A} a.
Global Arguments Raise {A} e.

Definition io (A : Type) : Type := world → outcome A * world.

Definition io_ret {A} (a : A) : io A := λ w, (Return a, w).
Definition io_bind {A B} (f : A → io B) (m : io A) : io B :=
  λ w, match m w with
       | (Return a, w') => f a w'
       | (Raise e, w') => (Raise e, w')
       end.
Global Instance io_mret : MRet io := @io_ret.
Global Instance io_mbind : MBind io := @io_bind.

Definition get : io world := λ w, (Return w, w).
Definition modify (f : world → world) : io unit := λ w, (Return tt, f w).

(** A call that leaves the script: it is logged, and then it fails or
    runs. *)
Definition call {A} (ev : event) (body : io A) : io A :=
  λ w, let w' := set_trace (trace w ++ [ev]) w in
       match fault (trace w) ev with
       | Some e => (Raise e, w')
       | None => body w'
       end.

Fixpoint repeatM {A} (n : nat) (m : io A) : io (list A) :=
  match n with
  | 0 => mret []
  | S n' => x ← m; xs ← repeatM n' m; mret (x :: xs)
  end.

Definition raise {A} (e : exn) : io A := λ w, (Raise e, w).

Fixpoint forM {A B} (l : list A) (f : A → io B) : io (list B) :=
  match l with
  | [] => mret []
  | x :: l' => y ← f x; ys ← forM l' f; mret (y :: ys)
  end.

(** ** The script *)

(** What the widgets hold in one run: the uploaded file, whether
    "Upload & Process" was clicked, the text of the question box, whether
    "Ask" was clicked. *)
Record widgets := {
  pdf_file : option (list Byte.byte);
  upload_clicked : bool;
  user_question : string;
  ask_clicked : bool;
}.

Definition temp_pdf : string := "temp.pdf".
(** [chunk_size=1000, chunk_overlap=200], line 52. *)
Definition chunk_size : nat := 1000.
Definition chunk_overlap : nat := 200.
Definition collection_name : string := "pdf_store".
Definition mistral_embed : string := "mistral-embed".

(** [with open(path, "wb") as f: f.write(data)], lines 45-46: opening
    truncates the file, writing fills it. *)
Definition open_wb_write (path : string) (data : list Byte.byte) : io unit :=
  call (OpenWb path) (modify (λ w, set_files (<[path := []]> (files w)) w));;
  call (FileWrite path data)
    (modify (λ w, set_files (<[path := data]> (files w)) w)).

(** [PyPDFLoader(path).load()], lines 49-50. *)
Definition PyPDFLoader_load (path : string) : io (list Document) :=
  call (PyPDFLoaderLoad path)
    (w ← get;
     match files w !! path with
     | Some data => mret (pdf_pages data)
     | None => raise "ValueError: file path is not a valid file"
     end).

(** [splitter.split_text(text)] of the splitter of line 52. *)
Definition splitter_split_text (text : string) : io (list string) :=
  call (SplitText chunk_size chunk_overlap text)
    (mret (split_text chunk_size chunk_overlap text)).

(** [str(uuid4())], line 64. *)
Definition draw : io string :=
  w ← get;
  let '(u, r) := uuid4 (entropy w) in
  modify (set_entropy r);; mret u.

Definition str_uuid4 : io string := call Uuid4 draw.

(** [AstraDBVectorStore(collection_name=..., embedding=...)], lines 57-62
    and 83-88. *)
Definition AstraDBVectorStore_init : io unit :=
  call (AstraDBVectorStoreInit collection_name mistral_embed) (mret tt).

(** The entries [add_documents] writes: one per (id, document) pair, a
    later pair replacing an earlier one with the same id. *)
Definition add_entries (entries : list (string * Document))
    (s : gmap string (string * vector)) : gmap string (string * vector) :=
  foldl (λ s e, <[e.1 := (page_content e.2, embed (page_content e.2))]> s)
        s entries.

(** [vector_store.add_documents(documents=docs, ids=uuids)], line 65.  A
    failing call may have written some of the entries. *)
Definition add_documents (docs : list Document) (ids : list string)
    : io unit :=
  λ w, let ev := AddDocuments collection_name docs ids in
       let w' := set_trace (trace w ++ [ev]) w in
       match fault (trace w) ev with
       | Some e =>
           let n := written_before_failure (trace w) in
           (Raise e,
            set_pdf_store (add_entries (take n (zip ids docs)) (pdf_store w'))
              w')
       | None =>
           (Return tt,
            set_pdf_store (add_entries (zip ids docs) (pdf_store w')) w')
       end.

(** A call of [st.success], [st.markdown] or [st.info] on lines 67, 151,
    152 and 154: the text is recorded as the script passes it.  What
    Streamlit does with a text before it shows it (it removes common
    indentation and surrounding whitespace) happens behind the call and
    is not the script's.  The rest of the page (the page configuration,
    the style block, the titles and the widgets of lines 26-37, 42, 70
    and 75-76), which does not depend on the state, is not recorded. *)
Definition st_write (line : string) : io unit :=
  modify (λ w, set_screen (screen w ++ [line]) w).

(** The body of [if st.sidebar.button("Upload & Process") and pdf_file],
    lines 43-67. *)
Definition upload_and_process (data : list Byte.byte) : io unit :=
  open_wb_write temp_pdf data;;
  pages ← PyPDFLoader_load temp_pdf;
  chunks ← forM pages (λ page, splitter_split_text (page_content page));
  let texts := concat chunks in
  let docs := (λ t, {| page_content := t |}) <$> texts in
  AstraDBVectorStore_init;;
  uuids ← repeatM (length docs) str_uuid4;
  add_documents docs uuids;;
  modify (set_vector_ready (Some true));;
  st_write "PDF Processed and Stored!".

(** [ChatMistralAI(model="mistral-large-latest", temperature=0.7,
    max_retries=2)], lines 78-81. *)
Definition chat_model : ChatMistralAI :=
  {| model := "mistral-large-latest"; temperature := QArith_base.Qmake 7 10;
     max_retries := 2 |}.

(** [vector_store.as_retriever(search_type="mmr", search_kwargs={"k": 4})],
    line 90. *)
Definition retriever : retriever_config :=
  {| search_type := "mmr"; search_kwargs := {["k" := 4]} |}.

Definition retriever_invoke (query : string) : io (list Document) :=
  call (Retrieve collection_name retriever query)
    (w ← get; mret (search (pdf_store w) retriever (embed query))).

Definition model_invoke (prompt : list message) : io string :=
  call (ChatCompletion chat_model prompt) (mret (complete chat_model prompt)).

Definition nl : string := RecursiveCharacterTextSplitter.nl.

Definition contextualize_q_system_prompt : string :=
  "Given a chat history and the latest user question             which might reference context in the chat history, formulate a standalone question             which can be understood without the chat history. Do NOT answer the question,             just reformulate it if needed and otherwise return it as is.".

(** [qa_system_prompt] with [{context}] filled in. *)
Definition qa_system_prompt (context : string) : string :=
  "You are an assistant for question-answering tasks.             Use the following pieces of retrieved context to answer the question.             If you don't know the answer, just say that you don't know.             Use three sentences maximum and keep the answer concise."
  +:+ nl +:+ "            " +:+ context.

(** [ChatPromptTemplate.from_messages([("system", s),
    MessagesPlaceholder("chat_history"), ("human", "{input}")])], lines
    97-103 and 116-122. *)
Definition prompt_messages (system : string) (history : list message)
    (input : string) : list message :=
  [SystemMessage system] ++ history ++ [HumanMessage input].

(** [create_history_aware_retriever(model, retriever,
    contextualize_q_prompt)], lines 104-106: with an empty history the
    question goes to the retriever as it is, otherwise the model rewrites it
    first. *)
Definition history_aware_retriever (input : string) (history : list message)
    : io (list Document) :=
  match history with
  | [] => retriever_invoke input
  | _ :: _ =>
      query ← model_invoke
        (prompt_messages contextualize_q_system_prompt history input);
      retriever_invoke query
  end.

(** [create_stuff_documents_chain(model, qa_prompt)], line 123: the
    documents fill [{context}], separated by blank lines. *)
Definition join_documents (docs : list Document) : string :=
  match docs with
  | [] => ""
  | d :: ds =>
      foldl (λ acc d', acc +:+ nl +:+ nl +:+ page_content d')
            (page_content d) ds
  end.

Definition question_answer_chain (input : string) (history : list message)
    (context : list Document) : io string :=
  model_invoke
    (prompt_messages (qa_system_prompt (join_documents context)) history
       input).

(** [create_retrieval_chain(history_aware_retriever,
    question_answer_chain)], line 125. *)
Definition rag_chain (input : string) (history : list message) : io string :=
  call (RagChain input history)
    (context ← history_aware_retriever input history;
     question_answer_chain input history context).

(** [get_session_history], lines 132-135.  [store] maps a session id to the
    messages of its [ChatMessageHistory]; the function returns the store,
    with the entry it may have made, and the messages of the entry. *)
Definition get_session_history (session_id : string)
    (store : gmap string (list message))
    : gmap string (list message) * list message :=
  match store !! session_id with
  | None => (<[session_id := []]> store, [])
  | Some h => (store, h)
  end.

(** [RunnableWithMessageHistory(rag_chain, get_session_history,
    input_messages_key="input", history_messages_key="chat_history",
    output_messages_key="answer").invoke({"input": input},
    config={"configurable": {"session_id": session_id}})], lines 138-147:
    the messages of the session go to the chain under [chat_history]; when
    the chain has answered, the question and the answer are added to the
    session's history. *)
Definition conversational_rag_chain_invoke
    (store : gmap string (list message)) (input session_id : string)
    : io (string * gmap string (list message)) :=
  call (RunnableInvoke session_id input)
    (let '(store1, history) := get_session_history session_id store in
     answer ← rag_chain input history;
     mret (answer,
           <[session_id := history ++ [HumanMessage input; AIMessage answer]]>
             store1)).

Definition session_id_literal : string := "abc123".

(** The body of [if st.button("Ask") and user_question], lines 77-148.  It
    returns the dictionary [store] as the run leaves it. *)
Definition ask (question : string) : io (gmap string (list message)) :=
  AstraDBVectorStore_init;;
  let store : gmap string (list message) := ∅ in
  '(answer, store') ←
    conversational_rag_chain_invoke store question session_id_literal;
  modify (λ w, set_chat_history
                 (Some (default [] (chat_history w) ++ [(question, answer)]))
                 w);;
  mret store'.

(** Lines 150-152. *)
Definition render_transcript : io unit :=
  w ← get;
  forM (default [] (chat_history w))
    (λ qa, st_write ("**You:** " +:+ qa.1);;
           st_write ("**Bot:** " +:+ qa.2));;
  mret tt.

Definition when (b : bool) (m : io unit) : io unit :=
  if b then m else mret tt.

(** One run of the script, lines 35-154. *)
Definition main (ui : widgets) : io unit :=
  modify (set_screen []);;
  w ← get;
  when (bool_decide (vector_ready w = None))
    (modify (set_vector_ready (Some false)));;
  match upload_clicked ui, pdf_file ui with
  | true, Some data => upload_and_process data
  | _, _ => mret tt
  end;;
  w ← get;
  if bool_decide (vector_ready w = Some true) then
    when (bool_decide (chat_history w = None))
      (modify (set_chat_history (Some [])));;
    when (ask_clicked ui && negb (String.eqb (user_question ui) ""))
      (ask (user_question ui);; mret tt);;
    render_transcript
  else
    st_write "Please upload and process a PDF to start chatting.".

(** A session: the runs of the script on successive interactions.  An
    exception ends the run in which it is raised, not the session. *)
Definition run (ui : widgets) (w : world) : world := (main ui w).2.

Definition session (uis : list widgets) (w : world) : world :=
  foldl (λ w ui, run ui w) w uis.

End App.

(** * Vocabulary of the properties *)

Section Vocabulary.
Context `{Services}.

(** [m] takes every state to a state related to it by [R], whether it
    returns or raises. *)
Definition preserves (R : relation world) {A} (m : io A) : Prop :=
  ∀ w, R w (m w).2.

(** Exceptions are not caught and calls are not repeated: when a call made
    by [m] fails, [m] raises the exception of that call and the failed call
    is the last call it made. *)
Definition propagates {A} (m : io A) : Prop :=
  ∀ w, trace w `prefix_of` trace (m w).2 ∧
       ∀ t ev e, (t ++ [ev]) `prefix_of` trace (m w).2 →
                 length (trace w) ≤ length t →
                 fault t ev = Some e →
                 (m w).1 = Raise e ∧ trace (m w).2 = t ++ [ev].

(** The forms of the calls the script makes. *)
Inductive script_event : event → Prop :=
| se_open : script_event (OpenWb temp_pdf)
| se_write data : script_event (FileWrite temp_pdf data)
| se_load : script_event (PyPDFLoaderLoad temp_pdf)
| se_split text : script_event (SplitText chunk_size chunk_overlap text)
| se_uuid4 : script_event Uuid4
| se_init : script_event (AstraDBVectorStoreInit collection_name mistral_embed)
| se_add docs ids : script_event (AddDocuments collection_name docs ids)
| se_invoke input : script_event (RunnableInvoke session_id_literal input)
| se_chain input : script_event (RagChain input [])
| se_retrieve query : script_event (Retrieve collection_name retriever query)
| se_complete prompt : script_event (ChatCompletion chat_model prompt).

(** The relations the script preserves. *)

(** The calls added to the log are calls of the forms above. *)
Definition logs_script_events (w w' : world) : Prop :=
  ∃ t, trace w' = trace w ++ t ∧ Forall script_event t.

(** No file other than [temp.pdf] changes. *)
Definition other_files_kept (w w' : world) : Prop :=
  ∀ path, path ≠ temp_pdf → files w' !! path = files w !! path.

(** A file that exists still exists. *)
Definition files_not_deleted (w w' : world) : Prop :=
  ∀ path, is_Some (files w !! path) → is_Some (files w' !! path).

(** The transcript: [st.session_state.chat_history], empty while the key is
    absent. *)
Definition transcript (w : world) : list (string * string) :=
  default [] (chat_history w).

Definition transcript_grows (w w' : world) : Prop :=
  transcript w `prefix_of` transcript w'.

(** The test of line 71: the question section is shown. *)
Definition chat_enabled (w : world) : bool :=
  bool_decide (vector_ready w = Some true).

(** What a relation must allow for the whole script to preserve it. *)
Record script_steps (R : relation world) : Prop := {
  step_log : ∀ ev w,
    script_event ev → R w (set_trace (trace w ++ [ev]) w);
  step_entropy : ∀ r w, R w (set_entropy r w);
  step_screen : ∀ s w, R w (set_screen s w);
  step_files : ∀ data w,
    R w (set_files (<[temp_pdf := data]> (files w)) w);
  step_store : ∀ entries w,
    R w (set_pdf_store (add_entries entries (pdf_store w)) w);
  step_flag : ∀ b w, R w (set_vector_ready (Some b) w);
  step_history_init : ∀ w,
    chat_history w = None → R w (set_chat_history (Some []) w);
  step_history_append : ∀ qa w,
    R w (set_chat_history (Some (transcript w ++ [qa])) w);
}.

(** The pages, chunks and documents of an uploaded file, lines 50-54. *)
Definition pages_of (data : list Byte.byte) : list Document := pdf_pages data.

Definition texts_of (data : list Byte.byte) : list string :=
  concat ((λ page, split_text chunk_size chunk_overlap (page_content page))
            <$> pages_of data).


Definition docs_of (data : list Byte.byte) : list Document :=
  (λ t, {| page_content := t |}) <$> texts_of data.

(** [n] identifiers drawn in a row from the generator. *)
Fixpoint draws (n : nat) (r : rng) : list string * rng :=
  match n with
  | 0 => ([], r)
  | S n' =>
      let '(u, r1) := uuid4 r in
      let '(us, r2) := draws n' r1 in
      (u :: us, r2)
  end.

(** The calls of an upload on which no call fails: those before the store
    is written, and all of them. *)
Definition upload_prelude (data : list Byte.byte) : list event :=
  [OpenWb temp_pdf; FileWrite temp_pdf data; PyPDFLoaderLoad temp_pdf]
  ++ ((λ page, SplitText chunk_size chunk_overlap (page_content page))
        <$> pages_of data)
  ++ [AstraDBVectorStoreInit collection_name mistral_embed]
  ++ replicate (length (docs_of data)) Uuid4.

Definition upload_events (data : list Byte.byte) (r : rng) : list event :=
  upload_prelude data
  ++ [AddDocuments collection_name (docs_of data)
        (draws (length (docs_of data)) r).1].

Global Instance is_uuid4_dec (ev : event) : Decision (ev = Uuid4).
Proof. destruct ev; first [by left|by right]. Defined.


(** The state an upload leaves when no call fails. *)
Definition uploaded (data : list Byte.byte) (w : world) : world :=
  let ids := draws (length (docs_of data)) (entropy w) in
  set_screen (screen w ++ ["PDF Processed and Stored!"])
    (set_vector_ready (Some true)
       (set_pdf_store
          (add_entries (zip ids.1 (docs_of data)) (pdf_store w))
          (set_entropy ids.2
             (set_files (<[temp_pdf := data]> (files w))
                (set_trace (trace w ++ upload_events data (entropy w))
                   w))))).

(** The calls [t] made from [w] on end with a call that failed with [e]. *)
Definition failed_at (w : world) (t : list event) (e : exn) : Prop :=
  ∃ t' ev, t = t' ++ [ev] ∧ fault (trace w ++ t') ev = Some e.

(** What an upload started in [w] comes to: the calls it makes are the
    first calls of [upload_events]; it makes all of them and leaves
    [uploaded], or its last call fails, the exception of that call is
    raised, the flag is as it was and, if the parser was called,
    [temp.pdf] holds the uploaded bytes. *)
Definition upload_post (data : list Byte.byte) (w : world)
    (r : outcome unit * world) : Prop :=
  ∃ t, trace r.2 = trace w ++ t ∧
       t `prefix_of` upload_events data (entropy w) ∧
       (r = (Return tt, uploaded data w) ∨
        ∃ e, failed_at w t e ∧ r.1 = Raise e ∧
             vector_ready r.2 = vector_ready w ∧
             (PyPDFLoaderLoad temp_pdf ∈ t →
              files r.2 !! temp_pdf = Some data)).

(** The prompt, the answer and the calls of a question asked in [w] when no
    call fails, and the state and the dictionary [store] the run leaves. *)
Definition ask_prompt (question : string) (w : world) : list message :=
  prompt_messages
    (qa_system_prompt
       (join_documents (search (pdf_store w) retriever (embed question))))
    [] question.

Definition ask_answer (question : string) (w : world) : string :=
  complete chat_model (ask_prompt question w).

Definition ask_events (question : string) (w : world) : list event :=
  [AstraDBVectorStoreInit collection_name mistral_embed;
   RunnableInvoke session_id_literal question;
   RagChain question [];
   Retrieve collection_name retriever question;
   ChatCompletion chat_model (ask_prompt question w)].

Definition asked (question : string) (w : world) : world :=
  set_chat_history
    (Some (transcript w ++ [(question, ask_answer question w)]))
    (set_trace (trace w ++ ask_events question w) w).

Definition ask_store (question : string) (w : world)
    : gmap string (list message) :=
  {[session_id_literal :=
      [HumanMessage question; AIMessage (ask_answer question w)]]}.

(** What a question asked in [w] comes to: every call is made and the turn
    is added to the transcript, or the last call made fails, its exception
    is raised and nothing but the log has changed. *)
Definition ask_post (question : string) (w : world)
    (r : outcome (gmap string (list message)) * world) : Prop :=
  r = (Return (ask_store question w), asked question w) ∨
  ∃ t e, t `prefix_of` ask_events question w ∧ failed_at w t e ∧
         r = (Raise e, set_trace (trace w ++ t) w).

End Vocabulary.

(** * A concrete set of services

    Used to run the script on concrete inputs: identifiers are the decimal
    numerals of a counter, a file is cut into pages at form feeds, the
    splitter is the one of the library, a vector is the length of its text,
    the search returns the first [k] stored texts and the chat model has one
    answer.  [f] says which calls fail. *)

Fixpoint demo_pages (cur : string) (data : list Byte.byte) : list Document :=
  match data with
  | [] => [{| page_content := String.rev cur |}]
  | b :: data' =>
      if Byte.eqb b Byte.x0c
      then {| page_content := String.rev cur |} :: demo_pages "" data'
      else demo_pages (String (ascii_of_byte b) cur) data'
  end.

Definition demo_search (s : gmap string (string * nat))
    (cfg : retriever_config) (v : nat) : list Document :=
  take (default 0 (search_kwargs cfg !! "k"))
    ((λ e, {| page_content := e.2.1 |}) <$> map_to_list s).

Definition demo (f : list event → event → option exn) : Services :=
  {| rng := nat;
     vector := nat;
     uuid4 := λ n, (pretty n, S n);
     fault := f;
     pdf_pages := demo_pages "";
     split_text := RecursiveCharacterTextSplitter.split_text;
     embed := String.length;
     written_before_failure := λ _, 0;
     search := demo_search;
     complete := λ _ _, "I don't know." |}.

Definition no_fault : list event → event → option exn := λ _ _, None.



(** The parser fails on every file. *)
Definition parse_fault : list event → event → option exn :=
  λ _ ev, match ev with
          | PyPDFLoaderLoad _ => Some "PdfStreamError"
          | _ => None
          end.

(** A process that has just started. *)
Definition init `{Services} (r : rng) : world :=
  {| vector_ready := None; chat_history := None; files := ∅;
     pdf_store := ∅; entropy := r; screen := []; trace := [] |}.

(** A file of two pages. *)
Definition two_pages : list Byte.byte :=
  String.list_byte_of_string "Rocq is a proof assistant."
  ++ [Byte.x0c]
  ++ String.list_byte_of_string "It checks proofs.".


Definition one_word : list Byte.byte := replicate 1202 Byte.x61.

Definition click_upload (data : list Byte.byte) : widgets :=
  {| pdf_file := Some data; upload_clicked := true;
     user_question := ""; ask_clicked := false |}.

Definition click_ask (data : list Byte.byte) (question : string) : widgets :=
  {| pdf_file := Some data; upload_clicked := false;
     user_question := question; ask_clicked := true |}.

(** The process of the examples, its first question and its second. *)
Definition demo_world : @world (demo no_fault) := @init (demo no_fault) 0.
Definition failing_world : @world (demo parse_fault) :=
  @init (demo parse_fault) 0.
Definition first_question : string := "What is Rocq?".
Definition second_question : string := "And what does it check?".

(** An upload and one question; an upload and two questions. *)
Definition one_turn : list widgets :=
  [click_upload two_pages; click_ask two_pages first_question].
Definition two_turns : list widgets :=
  [click_upload two_pages; click_ask two_pages first_question;
   click_ask two_pages second_question].

(** * Properties *)

Section Preserves.
Context `{Services}.
Context (R : relation world) `{!PreOrder R}.

Lemma preserves_ret {A} (a : A) : preserves R (mret a).
Proof. intros w. reflexivity. Qed.

Lemma preserves_raise {A} (e : exn) : preserves R (raise (A := A) e).
Proof. intros w. reflexivity. Qed.

Lemma preserves_get : preserves R get.
Proof. intros w. reflexivity. Qed.

Lemma preserves_bind {A B} (m : io A) (f : A → io B) :
  preserves R m → (∀ a, preserves R (f a)) → preserves R (m ≫= f).
Proof.
  intros Hm Hf w. unfold mbind, io_mbind, io_bind.
  specialize (Hm w). destruct (m w) as [[a|e] w1]; simpl in *; [|done].
  etrans; [exact Hm|apply Hf].
Qed.

Lemma preserves_modify (f : world → world) :
  (∀ w, R w (f w)) → preserves R (modify f).
Proof. intros Hf w. apply Hf. Qed.

Lemma preserves_call {A} (ev : event) (body : io A) :
  (∀ w, R w (set_trace (trace w ++ [ev]) w)) →
  preserves R body → preserves R (call ev body).
Proof.
  intros Hlog Hbody w. unfold call.
  destruct (fault (trace w) ev); simpl; [apply Hlog|].
  etrans; [apply Hlog|apply Hbody].
Qed.

Lemma preserves_forM {A B} (l : list A) (f : A → io B) :
  (∀ x, preserves R (f x)) → preserves R (forM l f).
Proof.
  intros Hf. induction l as [|x l IH]; simpl.
  - apply preserves_ret.
  - apply preserves_bind; [apply Hf|]. intros y.
    apply preserves_bind; [apply IH|]. intros ys. apply preserves_ret.
Qed.

Lemma preserves_repeatM {A} (n : nat) (m : io A) :
  preserves R m → preserves R (repeatM n m).
Proof.
  intros Hm. induction n as [|n IH]; simpl.
  - apply preserves_ret.
  - apply preserves_bind; [apply Hm|]. intros y.
    apply preserves_bind; [apply IH|]. intros ys. apply preserves_ret.
Qed.

Lemma preserves_when (b : bool) (m : io unit) :
  preserves R m → preserves R (when b m).
Proof. intros Hm. destruct b; [exact Hm|apply preserves_ret]. Qed.

End Preserves.

Section Script.
Context `{Services}.

Lemma set_trace_set_trace t1 t2 w :
  set_trace t2 (set_trace t1 w) = set_trace t2 w.
Proof. by destruct w. Qed.

Lemma world_eq w1 w2 :
  vector_ready w1 = vector_ready w2 →
  chat_history w1 = chat_history w2 →
  files w1 = files w2 →
  pdf_store w1 = pdf_store w2 →
  entropy w1 = entropy w2 →
  screen w1 = screen w2 →
  trace w1 = trace w2 →
  w1 = w2.
Proof. destruct w1, w2; simpl; intros; by subst. Qed.

Lemma trace_set_trace t w : trace (set_trace t w) = t.
Proof. done. Qed.

Lemma set_trace_id w : set_trace (trace w) w = w.
Proof. by destruct w. Qed.

Lemma bind_return {A B} (m : io A) (f : A → io B) w a w1 :
  m w = (Return a, w1) → (m ≫= f) w = f a w1.
Proof. intros Hm. unfold mbind, io_mbind, io_bind. by rewrite Hm. Qed.

Lemma bind_raise {A B} (m : io A) (f : A → io B) w e w1 :
  m w = (Raise e, w1) → (m ≫= f) w = (Raise e, w1).
Proof. intros Hm. unfold mbind, io_mbind, io_bind. by rewrite Hm. Qed.

Lemma bind_call_fails {A B} ev (body : io A) (f : A → io B) w e :
  fault (trace w) ev = Some e →
  (call ev body ≫= f) w = (Raise e, set_trace (trace w ++ [ev]) w).
Proof. intros Hf. unfold mbind, io_mbind, io_bind, call. by rewrite Hf. Qed.

Lemma bind_call_runs {A B} ev (body : io A) (f : A → io B) w :
  fault (trace w) ev = None →
  (call ev body ≫= f) w = (body ≫= f) (set_trace (trace w ++ [ev]) w).
Proof. intros Hf. unfold mbind, io_mbind, io_bind, call. by rewrite Hf. Qed.

Lemma bind_ret {A B} (a : A) (f : A → io B) w : (mret a ≫= f) w = f a w.
Proof. done. Qed.

(** The loop of line 53: one call of the splitter per page, in the order of
    the pages, until one fails. *)
Lemma forM_split_spec (pages : list Document) w :
  let r := forM pages (λ page, splitter_split_text (page_content page)) w in
  ∃ t, r.2 = set_trace (trace w ++ t) w ∧
       t `prefix_of`
         ((λ page, SplitText chunk_size chunk_overlap (page_content page))
            <$> pages) ∧
       match r.1 with
       | Return chunks =>
           chunks
           = (λ page, split_text chunk_size chunk_overlap (page_content page))
               <$> pages ∧
           t = (λ page, SplitText chunk_size chunk_overlap (page_content page))
                 <$> pages
       | Raise e => failed_at w t e
       end.
Proof.
  unfold splitter_split_text. cbv zeta.
  revert w. induction pages as [|page pages IH]; intros w.
  - exists []. simpl. by rewrite app_nil_r, set_trace_id.
  - rewrite !fmap_cons. cbn [forM].
    destruct (fault (trace w)
                (SplitText chunk_size chunk_overlap (page_content page)))
      as [e|] eqn:Hf.
    + rewrite (bind_call_fails _ _ _ _ _ Hf).
      exists [SplitText chunk_size chunk_overlap (page_content page)]. simpl.
      split; [done|]. split; [apply prefix_cons, prefix_nil|].
      exists [], (SplitText chunk_size chunk_overlap (page_content page)).
      by rewrite app_nil_r.
    + rewrite (bind_call_runs _ _ _ _ Hf), bind_ret.
      set (w1 := set_trace _ w).
      destruct (IH w1) as (t & Hw & Ht & Hr).
      exists (SplitText chunk_size chunk_overlap (page_content page) :: t).
      destruct (forM pages _ w1) as [[chunks|e] w2] eqn:Hrun;
        simpl in Hw, Hr; subst w2.
      * rewrite (bind_return _ _ _ _ _ Hrun). simpl.
        destruct Hr as [-> ->]. split; [|done].
        unfold w1. simpl. by rewrite set_trace_set_trace, <-app_assoc.
      * rewrite (bind_raise _ _ _ _ _ Hrun). simpl.
        split; [|split; [by apply prefix_cons|]].
        -- unfold w1. simpl. by rewrite set_trace_set_trace, <-app_assoc.
        -- destruct Hr as (t' & ev & -> & Hev).
           exists (SplitText chunk_size chunk_overlap (page_content page)
                     :: t'), ev.
           split; [done|]. unfold w1 in Hev. simpl in Hev.
           by rewrite <-app_assoc in Hev.
Qed.

Lemma bind_assoc {A B C} (m : io A) (f : A → io B) (g : B → io C) w :
  ((m ≫= f) ≫= g) w = (m ≫= (λ a, f a ≫= g)) w.
Proof.
  unfold mbind, io_mbind, io_bind. by destruct (m w) as [[a|e] w1].
Qed.

Lemma bind_draw {B} (f : string → io B) w :
  (draw ≫= f) w
  = f (uuid4 (entropy w)).1 (set_entropy (uuid4 (entropy w)).2 w).
Proof.
  unfold draw, mbind, io_mbind, io_bind, get. simpl.
  by destruct (uuid4 (entropy w)).
Qed.

(** The loop of line 64: one draw per document, until one fails. *)
Lemma repeatM_uuid_spec (n : nat) w :
  let r := repeatM n str_uuid4 w in
  ∃ t g, r.2 = set_entropy g (set_trace (trace w ++ t) w) ∧
         t `prefix_of` replicate n Uuid4 ∧
         match r.1 with
         | Return ids =>
             ids = (draws n (entropy w)).1 ∧
             g = (draws n (entropy w)).2 ∧
             t = replicate n Uuid4
         | Raise e => failed_at w t e
         end.
Proof.
  unfold str_uuid4. cbv zeta.
  revert w. induction n as [|n IH]; intros w.
  - exists [], (entropy w). simpl. rewrite app_nil_r. by destruct w.
  - cbn [repeatM replicate draws].
    destruct (fault (trace w) Uuid4) as [e|] eqn:Hf.
    + rewrite (bind_call_fails _ _ _ _ _ Hf).
      exists [Uuid4], (entropy w). simpl.
      split; [by destruct w|]. split; [apply prefix_cons, prefix_nil|].
      exists [], Uuid4. by rewrite app_nil_r.
    + rewrite (bind_call_runs _ _ _ _ Hf), bind_draw.
      set (w1 := set_trace _ w).
      change (entropy w1) with (entropy w).
      destruct (uuid4 (entropy w)) as [u r1] eqn:Hu. cbn [fst snd].
      set (w2 := set_entropy r1 w1).
      destruct (IH w2) as (t & g & Hw & Ht & Hr).
      change (entropy w2) with r1 in Hr.
      exists (Uuid4 :: t), g.
      destruct (repeatM n _ w2) as [[ids|e] w3] eqn:Hrun;
        simpl in Hw, Hr; subst w3.
      * rewrite (bind_return _ _ _ _ _ Hrun). simpl.
        destruct Hr as (-> & -> & ->).
        split; [|split; [done|by destruct (draws n r1)]].
        unfold w2, w1. destruct w; simpl. by rewrite <-app_assoc.
      * rewrite (bind_raise _ _ _ _ _ Hrun). simpl.
        split; [|split; [by apply prefix_cons|]].
        -- unfold w2, w1. destruct w; simpl. by rewrite <-app_assoc.
        -- destruct Hr as (t' & ev & -> & Hev).
           exists (Uuid4 :: t'), ev. split; [done|].
           unfold w2, w1 in Hev. simpl in Hev.
           by rewrite <-app_assoc in Hev.
Qed.

Lemma when_true (m : io unit) : when true m = m.
Proof. done. Qed.

Lemma when_false (m : io unit) : when false m = mret tt.
Proof. done. Qed.

Lemma bind_modify {B} (f : world → world) (g : unit → io B) w :
  (modify f ≫= g) w = g tt (f w).
Proof. done. Qed.

Lemma bind_get {B} (g : world → io B) w : (get ≫= g) w = g w w.
Proof. done. Qed.

Ltac wsimpl :=
  cbn [trace entropy files pdf_store vector_ready chat_history screen
       set_trace set_files set_entropy set_pdf_store set_vector_ready
       set_chat_history set_screen fst snd] in *.

Ltac unfold_worlds :=
  repeat match goal with x := _ : world |- _ => subst x end.

Ltac trace_eq := unfold_worlds; wsimpl; rewrite <-?app_assoc; done.

Lemma upload_post_raise (data : list Byte.byte) w t e w' :
  trace w' = trace w ++ t →
  t `prefix_of` upload_events data (entropy w) →
  failed_at w t e →
  vector_ready w' = vector_ready w →
  (PyPDFLoaderLoad temp_pdf ∈ t → files w' !! temp_pdf = Some data) →
  upload_post data w (Raise e, w').
Proof.
  intros Ht Hp Hf Hv Hl. exists t. split; [done|]. split; [done|].
  right. eauto.
Qed.

Ltac staged :=
  intros _; unfold_worlds; wsimpl; apply lookup_insert_eq.

Lemma failed_at_last w t ev e :
  fault (trace w ++ t) ev = Some e → failed_at w (t ++ [ev]) e.
Proof. intros Hf. by exists t, ev. Qed.

Lemma failed_at_app w tr t0 t e :
  trace w ++ t0 = tr →
  (∃ t' ev, t = t' ++ [ev] ∧ fault (tr ++ t') ev = Some e) →
  failed_at w (t0 ++ t) e.
Proof.
  intros <- (t' & ev & -> & Hf). exists (t0 ++ t'), ev.
  by rewrite <-!app_assoc in *.
Qed.

Lemma upload_spec (data : list Byte.byte) w :
  upload_post data w (upload_and_process data w).
Proof.
  unfold upload_and_process, open_wb_write, PyPDFLoader_load,
    AstraDBVectorStore_init.
  rewrite bind_assoc.
  destruct (fault (trace w) (OpenWb temp_pdf)) as [e|] eqn:F1.
  { rewrite (bind_call_fails _ _ _ _ _ F1).
    apply upload_post_raise with (t := [] ++ [OpenWb temp_pdf]); [done| |..].
    - unfold upload_events, upload_prelude. apply prefix_cons, prefix_nil.
    - apply failed_at_last. by rewrite app_nil_r.
    - done.
    - cbn [app]. rewrite !elem_of_cons, elem_of_nil. by intros [|]. }
  rewrite (bind_call_runs _ _ _ _ F1), bind_modify.
  match goal with |- context [_ (set_files ?f ?w0)] =>
    set (w1 := set_files f w0) end.
  destruct (fault (trace w1) (FileWrite temp_pdf data)) as [e|] eqn:F2.
  { rewrite (bind_call_fails _ _ _ _ _ F2).
    apply upload_post_raise
      with (t := [OpenWb temp_pdf] ++ [FileWrite temp_pdf data]).
    - trace_eq.
    - unfold upload_events, upload_prelude.
      do 2 apply prefix_cons. apply prefix_nil.
    - apply failed_at_last. exact F2.
    - done.
    - cbn [app]. rewrite !elem_of_cons, elem_of_nil. by intros [|[|]]. }
  rewrite (bind_call_runs _ _ _ _ F2), bind_modify.
  match goal with |- context [_ (set_files ?f ?w0)] =>
    set (w2 := set_files f w0) end.
  destruct (fault (trace w2) (PyPDFLoaderLoad temp_pdf)) as [e|] eqn:F3.
  { rewrite (bind_call_fails _ _ _ _ _ F3).
    apply upload_post_raise
      with (t := [OpenWb temp_pdf; FileWrite temp_pdf data]
                 ++ [PyPDFLoaderLoad temp_pdf]).
    - trace_eq.
    - unfold upload_events, upload_prelude.
      do 3 apply prefix_cons. apply prefix_nil.
    - apply failed_at_last. unfold_worlds. wsimpl.
      by rewrite <-!app_assoc in F3.
    - done.
    - staged. }
  rewrite (bind_call_runs _ _ _ _ F3), bind_assoc, bind_get.
  set (w3 := set_trace _ w2).
  assert (files w3 !! temp_pdf = Some data) as ->
    by (unfold w3, w2; wsimpl; apply lookup_insert_eq).
  rewrite bind_ret.
  assert (trace w3
          = trace w ++ [OpenWb temp_pdf; FileWrite temp_pdf data;
                        PyPDFLoaderLoad temp_pdf]) as Htr3
    by trace_eq.
  destruct (forM_split_spec (pdf_pages data) w3) as (ts & Hw4 & Hts & Hr4).
  destruct (forM (pdf_pages data) _ w3) as [[chunks|e] w4] eqn:Hrun4;
    simpl in Hw4, Hr4; subst w4; cycle 1.
  { rewrite (bind_raise _ _ _ _ _ Hrun4).
    apply upload_post_raise
      with (t := [OpenWb temp_pdf; FileWrite temp_pdf data;
                  PyPDFLoaderLoad temp_pdf] ++ ts).
    - trace_eq.
    - unfold upload_events, upload_prelude. rewrite <-!app_assoc.
      do 3 apply prefix_cons. by apply prefix_app_r.
    - by eapply failed_at_app.
    - done.
    - staged. }
  rewrite (bind_return _ _ _ _ _ Hrun4). destruct Hr4 as [-> ->].
  fold (pages_of data). fold (texts_of data). fold (docs_of data).
  set (w4 := set_trace _ w3).
  clear Hrun4 Hts.
  destruct (fault (trace w4)
              (AstraDBVectorStoreInit collection_name mistral_embed))
    as [e|] eqn:F5.
  { rewrite (bind_call_fails _ _ _ _ _ F5).
    apply upload_post_raise
      with (t := ([OpenWb temp_pdf; FileWrite temp_pdf data;
                   PyPDFLoaderLoad temp_pdf]
                  ++ ((λ page, SplitText chunk_size chunk_overlap
                                 (page_content page)) <$> pages_of data))
                 ++ [AstraDBVectorStoreInit collection_name mistral_embed]).
    - trace_eq.
    - unfold upload_events, upload_prelude. rewrite <-!app_assoc.
      do 3 apply prefix_cons. apply prefix_app, prefix_cons, prefix_nil.
    - apply failed_at_last. unfold_worlds. wsimpl.
      by rewrite <-!app_assoc in F5.
    - done.
    - staged. }
  rewrite (bind_call_runs _ _ _ _ F5), bind_ret.
  set (w5 := set_trace _ w4).
  assert (trace w5
          = trace w ++ [OpenWb temp_pdf; FileWrite temp_pdf data;
                        PyPDFLoaderLoad temp_pdf]
            ++ ((λ page, SplitText chunk_size chunk_overlap
                           (page_content page)) <$> pages_of data)
            ++ [AstraDBVectorStoreInit collection_name mistral_embed])
    as Htr5 by trace_eq.
  destruct (repeatM_uuid_spec (length (docs_of data)) w5)
    as (tu & g & Hw6 & Htu & Hr6).
  destruct (repeatM _ str_uuid4 w5) as [[ids|e] w6] eqn:Hrun6;
    simpl in Hw6, Hr6; subst w6; cycle 1.
  { rewrite (bind_raise _ _ _ _ _ Hrun6).
    apply upload_post_raise
      with (t := ([OpenWb temp_pdf; FileWrite temp_pdf data;
                   PyPDFLoaderLoad temp_pdf]
                  ++ ((λ page, SplitText chunk_size chunk_overlap
                                 (page_content page)) <$> pages_of data)
                  ++ [AstraDBVectorStoreInit collection_name mistral_embed])
                 ++ tu).
    - trace_eq.
    - unfold upload_events, upload_prelude. rewrite <-!app_assoc.
      do 3 apply prefix_cons. apply prefix_app, prefix_cons.
      by apply prefix_app_r.
    - by eapply failed_at_app.
    - done.
    - staged. }
  rewrite (bind_return _ _ _ _ _ Hrun6). destruct Hr6 as (-> & -> & ->).
  change (entropy w5) with (entropy w) in *.
  clear Hrun6 Htu.
  set (w6 := set_entropy _ _).
  unfold add_documents at 1, mbind at 1, io_mbind at 1, io_bind at 1.
  set (ids := (draws (length (docs_of data)) (entropy w)).1).
  destruct (fault (trace w6) (AddDocuments collection_name (docs_of data) ids))
    as [e|] eqn:F7.
  { apply upload_post_raise
      with (t := ([OpenWb temp_pdf; FileWrite temp_pdf data;
                   PyPDFLoaderLoad temp_pdf]
                  ++ ((λ page, SplitText chunk_size chunk_overlap
                                 (page_content page)) <$> pages_of data)
                  ++ [AstraDBVectorStoreInit collection_name mistral_embed]
                  ++ replicate (length (docs_of data)) Uuid4)
                 ++ [AddDocuments collection_name (docs_of data) ids]).
    - trace_eq.
    - unfold upload_events, upload_prelude. by rewrite <-!app_assoc.
    - apply failed_at_last. unfold_worlds. wsimpl.
      by rewrite <-!app_assoc in F7.
    - done.
    - staged. }
  rewrite bind_modify. unfold st_write, modify.
  set (w7 := set_pdf_store _ _).
  assert (set_screen (screen (set_vector_ready (Some true) w7)
                      ++ ["PDF Processed and Stored!"])
            (set_vector_ready (Some true) w7)
          = uploaded data w) as ->.
  { unfold uploaded, upload_events, upload_prelude. unfold_worlds.
    apply world_eq; wsimpl; try done.
    - by rewrite insert_insert_eq.
    - by rewrite <-!app_assoc. }
  exists (upload_events data (entropy w)).
  split; [done|]. split; [done|]. by left.
Qed.

Lemma ask_post_raise (question : string) w t e w' :
  t `prefix_of` ask_events question w →
  failed_at w t e →
  w' = set_trace (trace w ++ t) w →
  ask_post question w (Raise e, w').
Proof. intros Hp Hf ->. right. by exists t, e. Qed.

Lemma ask_spec (question : string) w :
  ask_post question w (ask question w).
Proof.
  unfold ask, AstraDBVectorStore_init, conversational_rag_chain_invoke,
    get_session_history, rag_chain, history_aware_retriever,
    question_answer_chain, retriever_invoke, model_invoke.
  rewrite lookup_empty.
  destruct (fault (trace w)
              (AstraDBVectorStoreInit collection_name mistral_embed))
    as [e|] eqn:F1.
  { rewrite (bind_call_fails _ _ _ _ _ F1).
    apply ask_post_raise
      with (t := [] ++ [AstraDBVectorStoreInit collection_name mistral_embed]);
      [apply prefix_cons, prefix_nil| |done].
    apply failed_at_last. by rewrite app_nil_r. }
  rewrite (bind_call_runs _ _ _ _ F1), bind_ret.
  set (w1 := set_trace _ w).
  destruct (fault (trace w1) (RunnableInvoke session_id_literal question))
    as [e|] eqn:F2.
  { rewrite (bind_call_fails _ _ _ _ _ F2).
    apply ask_post_raise
      with (t := [AstraDBVectorStoreInit collection_name mistral_embed]
                 ++ [RunnableInvoke session_id_literal question]).
    - do 2 apply prefix_cons. apply prefix_nil.
    - by apply failed_at_last.
    - unfold w1. rewrite set_trace_set_trace. wsimpl.
      by rewrite <-app_assoc. }
  rewrite (bind_call_runs _ _ _ _ F2), bind_assoc.
  set (w2 := set_trace _ w1).
  destruct (fault (trace w2) (RagChain question [])) as [e|] eqn:F3.
  { rewrite (bind_call_fails _ _ _ _ _ F3).
    apply ask_post_raise
      with (t := [AstraDBVectorStoreInit collection_name mistral_embed;
                  RunnableInvoke session_id_literal question]
                 ++ [RagChain question []]).
    - do 3 apply prefix_cons. apply prefix_nil.
    - apply failed_at_last. unfold_worlds. wsimpl.
      by rewrite <-!app_assoc in F3.
    - unfold w2, w1. rewrite !set_trace_set_trace. wsimpl.
      by rewrite <-!app_assoc. }
  rewrite (bind_call_runs _ _ _ _ F3), !bind_assoc.
  set (w3 := set_trace _ w2).
  destruct (fault (trace w3) (Retrieve collection_name retriever question))
    as [e|] eqn:F4.
  { rewrite (bind_call_fails _ _ _ _ _ F4).
    apply ask_post_raise
      with (t := [AstraDBVectorStoreInit collection_name mistral_embed;
                  RunnableInvoke session_id_literal question;
                  RagChain question []]
                 ++ [Retrieve collection_name retriever question]).
    - do 4 apply prefix_cons. apply prefix_nil.
    - apply failed_at_last. unfold_worlds. wsimpl.
      by rewrite <-!app_assoc in F4.
    - unfold w3, w2, w1. rewrite !set_trace_set_trace. wsimpl.
      by rewrite <-!app_assoc. }
  rewrite (bind_call_runs _ _ _ _ F4), bind_assoc, bind_get, bind_ret.
  set (w4 := set_trace _ w3).
  change (pdf_store w4) with (pdf_store w).
  fold (ask_prompt question w).
  destruct (fault (trace w4)
              (ChatCompletion chat_model (ask_prompt question w)))
    as [e|] eqn:F5.
  { rewrite (bind_call_fails _ _ _ _ _ F5).
    apply ask_post_raise
      with (t := [AstraDBVectorStoreInit collection_name mistral_embed;
                  RunnableInvoke session_id_literal question;
                  RagChain question [];
                  Retrieve collection_name retriever question]
                 ++ [ChatCompletion chat_model (ask_prompt question w)]).
    - done.
    - apply failed_at_last. unfold_worlds. wsimpl.
      by rewrite <-!app_assoc in F5.
    - unfold w4, w3, w2, w1. rewrite !set_trace_set_trace. wsimpl.
      by rewrite <-!app_assoc. }
  rewrite (bind_call_runs _ _ _ _ F5), !bind_ret, bind_modify.
  fold (ask_answer question w).
  left. unfold mret, io_mret, io_ret.
  assert (<[session_id_literal:=[] ++ [HumanMessage question;
                                       AIMessage (ask_answer question w)]]>
            (<[session_id_literal:=[]]> (∅ : gmap string (list message)))
          = ask_store question w) as ->
    by (unfold ask_store; by rewrite insert_insert_eq, insert_empty).
  f_equal.
  unfold asked, ask_events, transcript. unfold_worlds.
  apply world_eq; wsimpl; try done. by rewrite <-!app_assoc.
Qed.

(** ** The script preserves every relation its steps preserve *)

Section ScriptPreserves.
Context (R : relation world) `{!PreOrder R} (HR : script_steps R).

Ltac step :=
  lazymatch goal with
  | |- preserves _ (mret _) => apply (preserves_ret R)
  | |- preserves _ (raise _) => apply (preserves_raise R)
  | |- preserves _ get => apply (preserves_get R)
  | |- preserves _ (when _ _) => apply (preserves_when R)
  | |- preserves _ (forM _ _) => apply (preserves_forM R); intros ?
  | |- preserves _ (repeatM _ _) => apply (preserves_repeatM R)
  | |- preserves _ (modify _) => apply (preserves_modify R); intros ?
  | |- preserves _ (call _ _) =>
      apply (preserves_call R); [intros ?; apply (step_log R HR); constructor|]
  | |- preserves _ (_ ≫= _) => apply (preserves_bind R); [|intros ?]
  end;
  try assumption.

Lemma preserves_st_write line : preserves R (st_write line).
Proof. unfold st_write. step. apply (step_screen R HR). Qed.

Lemma preserves_open_wb_write data :
  preserves R (open_wb_write temp_pdf data).
Proof.
  unfold open_wb_write. repeat step; apply (step_files R HR).
Qed.

Lemma preserves_load : preserves R (PyPDFLoader_load temp_pdf).
Proof.
  unfold PyPDFLoader_load. repeat step.
  destruct (files _ !! temp_pdf); step.
Qed.

Lemma preserves_split text : preserves R (splitter_split_text text).
Proof. unfold splitter_split_text. repeat step. Qed.

Lemma preserves_str_uuid4 : preserves R str_uuid4.
Proof.
  unfold str_uuid4, draw. repeat step.
  destruct (uuid4 _) as [u r]. repeat step. apply (step_entropy R HR).
Qed.

Lemma preserves_init : preserves R AstraDBVectorStore_init.
Proof. unfold AstraDBVectorStore_init. repeat step. Qed.

Lemma preserves_add_documents docs ids : preserves R (add_documents docs ids).
Proof.
  intros w. unfold add_documents.
  destruct (fault _ _); cbn [snd];
    (etrans; [apply (step_log R HR); constructor|apply (step_store R HR)]).
Qed.

Lemma preserves_upload data : preserves R (upload_and_process data).
Proof.
  unfold upload_and_process.
  apply (preserves_bind R); [apply preserves_open_wb_write|intros _].
  apply (preserves_bind R); [apply preserves_load|intros pages].
  apply (preserves_bind R);
    [apply (preserves_forM R); intros; apply preserves_split|intros chunks].
  apply (preserves_bind R); [apply preserves_init|intros _].
  apply (preserves_bind R);
    [apply (preserves_repeatM R), preserves_str_uuid4|intros uuids].
  apply (preserves_bind R); [apply preserves_add_documents|intros _].
  apply (preserves_bind R); [|intros _; apply preserves_st_write].
  step. apply (step_flag R HR).
Qed.

Lemma preserves_retriever_invoke query : preserves R (retriever_invoke query).
Proof. unfold retriever_invoke. repeat step. Qed.

Lemma preserves_model_invoke prompt : preserves R (model_invoke prompt).
Proof. unfold model_invoke. repeat step. Qed.

Lemma preserves_history_aware_retriever input history :
  preserves R (history_aware_retriever input history).
Proof.
  unfold history_aware_retriever. destruct history.
  - apply preserves_retriever_invoke.
  - apply (preserves_bind R); [apply preserves_model_invoke|intros ?].
    apply preserves_retriever_invoke.
Qed.

(** The dictionary [store] is empty when the chain is invoked, so the
    history the chain receives is empty. *)
Lemma preserves_ask question : preserves R (ask question).
Proof.
  unfold ask.
  apply (preserves_bind R); [apply preserves_init|intros _].
  apply (preserves_bind R).
  - unfold conversational_rag_chain_invoke, get_session_history.
    rewrite lookup_empty. step. step; [|step].
    unfold rag_chain. step. step.
    + apply preserves_history_aware_retriever.
    + apply preserves_model_invoke.
  - intros [answer store']. step; [|step].
    step. apply (step_history_append R HR).
Qed.

Lemma preserves_render_transcript : preserves R render_transcript.
Proof.
  unfold render_transcript. repeat step; apply preserves_st_write.
Qed.

(** Lines 75-152: the question box, the "Ask" button and the transcript. *)
Lemma preserves_chat_section ui :
  preserves R
    (when (ask_clicked ui && negb (String.eqb (user_question ui) ""))
       (ask (user_question ui);; mret tt);;
     render_transcript).
Proof.
  step; [|apply preserves_render_transcript].
  step. step; [apply preserves_ask|step].
Qed.

Lemma preserves_main ui : preserves R (main ui).
Proof.
  unfold main.
  step; [step; apply (step_screen R HR)|].
  step; [step|].
  step.
  { unfold when. case_bool_decide; [|step]. step. apply (step_flag R HR). }
  step.
  { destruct (upload_clicked ui), (pdf_file ui);
      try step; apply preserves_upload. }
  intros w. rewrite bind_get.
  case_bool_decide; [|apply preserves_st_write].
  destruct (decide (chat_history w = None)) as [Hh|Hh].
  - rewrite (bool_decide_eq_true_2 _ Hh), when_true, bind_modify.
    etrans; [by apply (step_history_init R HR)|].
    apply preserves_chat_section.
  - rewrite (bool_decide_eq_false_2 _ Hh), when_false, bind_ret.
    apply preserves_chat_section.
Qed.

End ScriptPreserves.

Lemma preserves_run (R : relation world) `{!PreOrder R} :
  script_steps R → ∀ ui w, R w (run ui w).
Proof. intros HR ui w. by apply (preserves_main R HR ui w). Qed.

Lemma preserves_session (R : relation world) `{!PreOrder R} :
  script_steps R → ∀ uis w, R w (session uis w).
Proof.
  intros HR uis. unfold session.
  induction uis as [|ui uis IH]; intros w; [done|].
  cbn [foldl]. etrans; [exact (preserves_run R HR ui w)|apply IH].
Qed.

(** ** The relations of the vocabulary are preserved *)

Global Instance logs_script_events_preorder : PreOrder logs_script_events.
Proof.
  split.
  - intros w. exists []. by rewrite app_nil_r.
  - intros w1 w2 w3 (t1 & H1 & F1) (t2 & H2 & F2). exists (t1 ++ t2).
    rewrite H2, H1, app_assoc. split; [done|]. by apply Forall_app.
Qed.

Lemma logs_script_events_steps : script_steps logs_script_events.
Proof.
  split; intros; try (exists []; by rewrite app_nil_r).
  exists [ev]. split; [done|]. by apply Forall_singleton.
Qed.

Global Instance other_files_kept_preorder : PreOrder other_files_kept.
Proof.
  split.
  - by intros w path _.
  - intros w1 w2 w3 H1 H2 path Hp. by rewrite H2, H1.
Qed.

Lemma other_files_kept_steps : script_steps other_files_kept.
Proof.
  split; intros; intros path Hp; try done.
  simpl. by rewrite lookup_insert_ne.
Qed.

Global Instance files_not_deleted_preorder : PreOrder files_not_deleted.
Proof.
  split.
  - by intros w path.
  - intros w1 w2 w3 H1 H2 path Hp. by apply H2, H1.
Qed.

Lemma files_not_deleted_steps : script_steps files_not_deleted.
Proof.
  split; intros; intros path Hp; try done.
  simpl. rewrite lookup_insert_is_Some.
  destruct (decide (temp_pdf = path)); auto.
Qed.

Global Instance transcript_grows_preorder : PreOrder transcript_grows.
Proof.
  unfold transcript_grows. split.
  - by intros w.
  - intros w1 w2 w3 H1 H2. by etrans.
Qed.

Lemma transcript_grows_steps : script_steps transcript_grows.
Proof.
  unfold transcript_grows, transcript.
  split; intros; simpl; try done.
  - match goal with Hn : chat_history _ = None |- _ => by rewrite Hn end.
  - by apply prefix_app_r.
Qed.

(** ** Exceptions propagate *)

Lemma prefix_of_prefix {A} (l1 l2 l : list A) :
  l1 `prefix_of` l → l2 `prefix_of` l → length l1 ≤ length l2 →
  l1 `prefix_of` l2.
Proof.
  intros H1 H2 Hlen.
  destruct (prefix_weak_total _ _ _ H1 H2) as [|H21]; [done|].
  by rewrite (prefix_length_eq _ _ H21 Hlen).
Qed.

Lemma propagates_neutral {A} (m : io A) :
  (∀ w, trace (m w).2 = trace w) → propagates m.
Proof.
  intros Hm w. rewrite Hm. split; [done|].
  intros t ev e Hp Hlen _. apply prefix_length in Hp.
  rewrite length_app in Hp. simpl in Hp. lia.
Qed.

Lemma propagates_ret {A} (a : A) : propagates (mret a).
Proof. by apply propagates_neutral. Qed.

Lemma propagates_raise {A} (e : exn) : propagates (raise (A := A) e).
Proof. by apply propagates_neutral. Qed.

Lemma propagates_get : propagates get.
Proof. by apply propagates_neutral. Qed.

Lemma propagates_modify (f : world → world) :
  (∀ w, trace (f w) = trace w) → propagates (modify f).
Proof. intros Hf. by apply propagates_neutral. Qed.

Lemma propagates_bind {A B} (m : io A) (f : A → io B) :
  propagates m → (∀ a, propagates (f a)) → propagates (m ≫= f).
Proof.
  intros Hm Hf w. destruct (Hm w) as [Hp Hq].
  unfold mbind, io_mbind, io_bind.
  destruct (m w) as [[a|e0] w1]; simpl in *.
  2: { split; [done|]. intros t ev e H1 H2 H3.
       by destruct (Hq t ev e H1 H2 H3) as [[= ->] ->]. }
  destruct (Hf a w1) as [Hp2 Hq2]. split; [by etrans|].
  intros t ev e Hpre Hlen Hfault.
  destruct (decide (length (trace w1) ≤ length t)) as [Hle|Hgt].
  - by apply Hq2.
  - assert ((t ++ [ev]) `prefix_of` trace w1) as Hpre1.
    { eapply prefix_of_prefix; [done..|].
      rewrite length_app. simpl. lia. }
    by destruct (Hq t ev e Hpre1 Hlen Hfault).
Qed.

(** A call is logged once; when it fails nothing follows it. *)
Lemma propagates_logged {A} (ev : event) (body : io A) :
  propagates body →
  propagates
    (λ w, match fault (trace w) ev with
          | Some e => (Raise e, set_trace (trace w ++ [ev]) w)
          | None => body (set_trace (trace w ++ [ev]) w)
          end).
Proof.
  intros Hbody w. destruct (fault (trace w) ev) as [e0|] eqn:Hf; simpl.
  - split; [by apply prefix_app_r|].
    intros t ev' e Hpre Hlen Hfault.
    apply prefix_length_eq in Hpre;
      [|rewrite !length_app; simpl; lia].
    apply app_inj_tail in Hpre as [-> ->]. by simplify_eq.
  - destruct (Hbody (set_trace (trace w ++ [ev]) w)) as [Hp Hq].
    simpl in Hp, Hq. split; [by etrans; [apply prefix_app_r|]|].
    intros t ev' e Hpre Hlen Hfault.
    destruct (decide (length (trace w ++ [ev]) ≤ length t)) as [Hle|Hgt].
    + by apply Hq.
    + assert ((t ++ [ev']) `prefix_of` trace w ++ [ev]) as Hpre1.
      { eapply prefix_of_prefix; [done..|].
        rewrite !length_app in *. simpl in *. lia. }
      apply prefix_length_eq in Hpre1;
        [|rewrite !length_app in *; simpl in *; lia].
      apply app_inj_tail in Hpre1 as [-> ->]. by simplify_eq.
Qed.

Lemma propagates_call {A} (ev : event) (body : io A) :
  propagates body → propagates (call ev body).
Proof. apply propagates_logged. Qed.

Lemma propagates_forM {A B} (l : list A) (f : A → io B) :
  (∀ x, propagates (f x)) → propagates (forM l f).
Proof.
  intros Hf. induction l as [|x l IH]; simpl.
  - apply propagates_ret.
  - apply propagates_bind; [apply Hf|]. intros y.
    apply propagates_bind; [apply IH|]. intros ys. apply propagates_ret.
Qed.

Lemma propagates_repeatM {A} (n : nat) (m : io A) :
  propagates m → propagates (repeatM n m).
Proof.
  intros Hm. induction n as [|n IH]; simpl.
  - apply propagates_ret.
  - apply propagates_bind; [apply Hm|]. intros y.
    apply propagates_bind; [apply IH|]. intros ys. apply propagates_ret.
Qed.

Lemma propagates_when (b : bool) (m : io unit) :
  propagates m → propagates (when b m).
Proof. intros Hm. destruct b; [exact Hm|apply propagates_ret]. Qed.

Lemma propagates_add_documents docs ids : propagates (add_documents docs ids).
Proof.
  intros w.
  pose proof (propagates_logged (AddDocuments collection_name docs ids)
                (mret tt) (propagates_ret tt) w) as Hl.
  unfold add_documents. cbv beta zeta in *.
  destruct (fault (trace w) (AddDocuments collection_name docs ids));
    exact Hl.
Qed.

Ltac pstep :=
  lazymatch goal with
  | |- propagates (mret _) => apply propagates_ret
  | |- propagates (raise _) => apply propagates_raise
  | |- propagates get => apply propagates_get
  | |- propagates (when _ _) => apply propagates_when
  | |- propagates (forM _ _) => apply propagates_forM; intros ?
  | |- propagates (repeatM _ _) => apply propagates_repeatM
  | |- propagates (modify _) => apply propagates_modify; by intros ?
  | |- propagates (call _ _) => apply propagates_call
  | |- propagates (add_documents _ _) => apply propagates_add_documents
  | |- propagates (_ ≫= _) => apply propagates_bind; [|intros ?]
  | |- propagates (match ?x with _ => _ end) => destruct x
  | |- propagates (let '(_, _) := ?x in _) => destruct x
  end.

Lemma propagates_upload data : propagates (upload_and_process data).
Proof.
  unfold upload_and_process, open_wb_write, PyPDFLoader_load,
    splitter_split_text, AstraDBVectorStore_init, str_uuid4, draw, st_write.
  repeat pstep.
Qed.

Lemma propagates_ask question : propagates (ask question).
Proof.
  unfold ask, AstraDBVectorStore_init, conversational_rag_chain_invoke,
    rag_chain, question_answer_chain, history_aware_retriever,
    retriever_invoke, model_invoke.
  repeat pstep.
Qed.

Lemma propagates_main ui : propagates (main ui).
Proof.
  unfold main, render_transcript, st_write.
  repeat pstep; first [apply propagates_upload|apply propagates_ask].
Qed.

End Script.


(** * The claims *)

Section Claims.
Context `{Services}.

(** ** Identifiers and chunks of an upload *)

Lemma draws_length (n : nat) (r : rng) : length (draws n r).1 = n.
Proof.
  revert r. induction n as [|n IH]; intros r; simpl; [done|].
  destruct (uuid4 r) as [u r1]. specialize (IH r1).
  destruct (draws n r1). simpl in *. by rewrite IH.
Qed.


Lemma docs_of_length (data : list Byte.byte) :
  length (docs_of data) = length (texts_of data).
Proof. unfold docs_of. by rewrite length_fmap. Qed.









(** ** What an upload stores *)

Lemma add_entries_cons (e : string * Document) entries
    (s : gmap string (string * vector)) :
  add_entries (e :: entries) s
  = add_entries entries
      (<[e.1 := (page_content e.2, embed (page_content e.2))]> s).
Proof. done. Qed.

Lemma add_entries_lookup_notin (entries : list (string * Document))
    (s : gmap string (string * vector)) (i : string) :
  i ∉ entries.*1 → add_entries entries s !! i = s !! i.
Proof.
  revert s. induction entries as [|e entries IH]; intros s Hi; [done|].
  rewrite add_entries_cons. rewrite fmap_cons, not_elem_of_cons in Hi.
  destruct Hi as [Hne Hi]. rewrite IH by done. by rewrite lookup_insert_ne.
Qed.


Lemma upload_returns_uploaded (data : list Byte.byte) w w1 :
  upload_and_process data w = (Return tt, w1) → w1 = uploaded data w.
Proof.
  intros Hu. destruct (upload_spec data w) as (t & _ & _ & [Hr|Hr]).
  - congruence.
  - destruct Hr as (e & _ & He & _). rewrite Hu in He. discriminate.
Qed.

Lemma add_entries_lookup_in (entries : list (string * Document))
    (s : gmap string (string * vector)) (k : nat) (i : string)
    (d : Document) :
  NoDup entries.*1 →
  entries !! k = Some (i, d) →
  add_entries entries s !! i = Some (page_content d, embed (page_content d)).
Proof.
  revert s k. induction entries as [|e entries IH]; intros s k Hnd Hk;
    [done|].
  rewrite fmap_cons in Hnd. apply NoDup_cons in Hnd as [Hne Hnd].
  rewrite add_entries_cons. destruct k as [|k]; simpl in Hk.
  - injection Hk as ->. simpl in *.
    rewrite add_entries_lookup_notin by done. apply lookup_insert_eq.
  - by apply (IH _ k).
Qed.






(** ** Uploading the same file twice *)



(** ** Calls made in a session *)

(** Every call a session adds to the log has one of the forms of
    [script_event]. *)
Lemma session_calls (uis : list widgets) (w : world) (t : list event)
    (ev : event) :
  trace (session uis w) = trace w ++ t → ev ∈ t → script_event ev.
Proof.
  intros Ht Hin.
  destruct (preserves_session logs_script_events logs_script_events_steps
              uis w) as (t' & Ht' & Hall).
  rewrite Ht in Ht'. apply app_inv_head in Ht' as <-.
  by eapply Forall_forall in Hall.
Qed.

Lemma ask_returns_asked (question : string) w store :
  (ask question w).1 = Return store →
  ask question w = (Return (ask_store question w), asked question w).
Proof.
  intros Hr. destruct (ask_spec question w) as [Ha|(t & e & _ & _ & Ha)].
  - done.
  - rewrite Ha in Hr. discriminate.
Qed.

(** The chain never receives an earlier turn: in every session, every call
    of the chain carries an empty history. *)
Lemma chain_history_is_empty (uis : list widgets) (w : world)
    (t : list event) (input : string) (history : list message) :
  trace (session uis w) = trace w ++ t →
  RagChain input history ∈ t → history = [].
Proof.
  intros Ht Hin. pose proof (session_calls uis w t _ Ht Hin) as Hev.
  by inversion Hev.
Qed.

(** C5.  In every session, every retrieval the script makes goes to the
    collection [pdf_store] with search type "mmr" and [k] set to 4 in
    [search_kwargs], which has no other key, so no filter; and a question
    that is answered has been through one such retrieval. *)
Theorem retrieval_is_mmr_k4_unfiltered (uis : list widgets) (w : world) :
  (∀ t c cfg query,
     trace (session uis w) = trace w ++ t →
     Retrieve c cfg query ∈ t →
     c = "pdf_store" ∧
     search_type cfg = "mmr" ∧
     search_kwargs cfg !! "k" = Some 4 ∧
     search_kwargs cfg !! "filter" = None ∧
     dom (search_kwargs cfg) = {["k"]}) ∧
  (∀ question store,
     (ask question w).1 = Return store →
     ∃ t0 query,
       trace (ask question w).2 = trace w ++ t0 ∧
       Retrieve "pdf_store"
         {| search_type := "mmr"; search_kwargs := {["k" := 4]} |} query
       ∈ t0).
Proof.
  split.
  - intros t c cfg query Ht Hin.
    pose proof (session_calls uis w t _ Ht Hin) as Hev.
    inversion Hev; subst. unfold retriever; simpl.
    split; [done|]. split; [done|]. split; [done|]. split; [done|].
    by rewrite dom_singleton_L.
  - intros question store Hr. rewrite (ask_returns_asked _ _ _ Hr). simpl.
    exists (ask_events question w), question. split; [done|].
    unfold ask_events. rewrite !elem_of_cons. auto.
Qed.

(** C6.  In every session, every invocation of the conversational chain is
    made under the session identifier "abc123", so any two invocations are
    made under the same identifier. *)
Theorem session_id_is_constant (uis : list widgets) (w : world)
    (t : list event) (sid1 sid2 input1 input2 : string) :
  trace (session uis w) = trace w ++ t →
  RunnableInvoke sid1 input1 ∈ t →
  RunnableInvoke sid2 input2 ∈ t →
  sid1 = "abc123" ∧ sid2 = sid1.
Proof.
  intros Ht Hin1 Hin2.
  pose proof (session_calls uis w t _ Ht Hin1) as Hev1.
  pose proof (session_calls uis w t _ Ht Hin2) as Hev2.
  inversion Hev1; inversion Hev2; by subst.
Qed.

(** C7.  In a run of the script, a call that fails ends the run: the
    exception of the call is the outcome of the run and the call is the
    last one the run makes, so nothing is caught and nothing is called
    again.  The one retry setting the script passes is [max_retries=2] of
    the chat model, on every completion it asks for. *)
Theorem failures_propagate_unretried (ui : widgets) (w : world)
    (t : list event) (ev : event) (e : exn) :
  (t ++ [ev]) `prefix_of` trace (run ui w) →
  length (trace w) ≤ length t →
  fault t ev = Some e →
  (main ui w).1 = Raise e ∧
  trace (run ui w) = t ++ [ev] ∧
  max_retries chat_model = 2 ∧
  ∀ llm prompt,
    ChatCompletion llm prompt ∈ drop (length (trace w)) (trace (run ui w)) →
    max_retries llm = 2.
Proof.
  intros Hp Hlen Hf.
  destruct (propagates_main ui w) as [_ Hq].
  destruct (Hq t ev e Hp Hlen Hf) as [Hr Ht].
  split; [done|]. split; [done|]. split; [done|].
  intros llm prompt Hin.
  destruct (preserves_run logs_script_events logs_script_events_steps ui w)
    as (t' & Ht' & Hall).
  rewrite Ht', drop_app_length in Hin.
  eapply Forall_forall in Hall; [|done]. by inversion Hall.
Qed.

(** ** The transcript *)

(** C8.  The transcript a session leaves starts with the transcript it
    found; a question leaves the transcript as it was or adds one turn,
    the question and its answer, at the end; and the wrapper of the chain
    adds the question and the answer at the end of the messages kept under
    the session identifier and leaves the other identifiers alone. *)
Theorem transcript_append_keeps_prefix (uis : list widgets) (w : world)
    (question session_id : string) (store : gmap string (list message)) :
  transcript w `prefix_of` transcript (session uis w) ∧
  (transcript (ask question w).2 = transcript w ∨
   ∃ answer, (ask question w).1 = Return (ask_store question w) ∧
             transcript (ask question w).2
             = transcript w ++ [(question, answer)]) ∧
  match (conversational_rag_chain_invoke store question session_id w).1 with
  | Return (answer, store') =>
      store' !! session_id
      = Some (default [] (store !! session_id)
              ++ [HumanMessage question; AIMessage answer]) ∧
      ∀ other, other ≠ session_id → store' !! other = store !! other
  | Raise _ => True
  end.
Proof.
  split; [|split].
  - apply (preserves_session transcript_grows transcript_grows_steps).
  - destruct (ask_spec question w) as [Ha|(t & e & _ & _ & Ha)].
    + right. exists (ask_answer question w). by rewrite Ha.
    + left. by rewrite Ha.
  - unfold conversational_rag_chain_invoke, call.
    destruct (fault _ _); [done|].
    unfold get_session_history.
    destruct (store !! session_id) as [h|] eqn:Hs; simpl.
    + unfold mbind, io_mbind, io_bind.
      destruct (rag_chain _ _ _) as [[answer|e] w1]; [|done]. simpl.
      split; [by rewrite lookup_insert_eq|].
      intros other Hne. by rewrite lookup_insert_ne.
    + unfold mbind, io_mbind, io_bind.
      destruct (rag_chain _ _ _) as [[answer|e] w1]; [|done]. simpl.
      split; [by rewrite lookup_insert_eq|].
      intros other Hne. by rewrite !lookup_insert_ne.
Qed.

(** ** The temporary file and the flag *)

(** C9.  A session changes no file other than [temp.pdf] and removes no
    file, [temp.pdf] included; when an upload reaches the parser, the
    parser is given [temp.pdf], which by then holds the uploaded bytes,
    whatever it held before, and still holds them when the upload ends. *)
Theorem upload_writes_only_temp_pdf (uis : list widgets) (w : world) :
  (∀ other, other ≠ "temp.pdf" →
            files (session uis w) !! other = files w !! other) ∧
  (∀ any, is_Some (files w !! any) →
          is_Some (files (session uis w) !! any)) ∧
  (∀ data t path,
     trace (upload_and_process data w).2 = trace w ++ t →
     PyPDFLoaderLoad path ∈ t →
     path = "temp.pdf" ∧
     files (upload_and_process data w).2 !! "temp.pdf" = Some data).
Proof.
  split; [|split].
  - apply (preserves_session other_files_kept other_files_kept_steps).
  - apply (preserves_session files_not_deleted files_not_deleted_steps).
  - intros data t path Ht Hin.
    assert (path = temp_pdf) as ->.
    { destruct (upload_spec data w) as (t' & Ht' & Hp & _).
      rewrite Ht in Ht'. apply app_inv_head in Ht' as <-.
      destruct Hp as [k Hk].
      assert (PyPDFLoaderLoad path ∈ upload_events data (entropy w)) as Hin'
        by (rewrite Hk; apply elem_of_app; by left).
      unfold upload_events, upload_prelude in Hin'.
      rewrite !elem_of_app, !elem_of_cons in Hin'.
      rewrite list_elem_of_fmap, elem_of_replicate, !elem_of_nil in Hin'.
      destruct Hin'
        as [[[?|[?|[?|[]]]]|[(page & ? & _)|[[?|[]]|[? _]]]]|[?|[]]];
        by simplify_eq. }
    split; [done|].
    destruct (upload_spec data w) as (t' & Ht' & _ & [Hu|Hr]).
    + rewrite Hu. unfold uploaded. simpl. apply lookup_insert_eq.
    + destruct Hr as (e & _ & _ & _ & Hl). apply Hl.
      rewrite Ht in Ht'. by apply app_inv_head in Ht' as <-.
Qed.

(** C10.  An upload that raises leaves [vector_ready], and with it the test
    that shows the question section, as it found them; this holds whichever
    call of the upload fails.  An upload that returns has set the flag, and
    its call of [add_documents] was made and did not fail. *)
Theorem vector_ready_set_only_after_store (data : list Byte.byte)
    (w : world) :
  (∀ e, (upload_and_process data w).1 = Raise e →
        vector_ready (upload_and_process data w).2 = vector_ready w ∧
        chat_enabled (upload_and_process data w).2 = chat_enabled w) ∧
  (∀ t ev e,
     (t ++ [ev]) `prefix_of` trace (upload_and_process data w).2 →
     length (trace w) ≤ length t →
     fault t ev = Some e →
     vector_ready (upload_and_process data w).2 = vector_ready w) ∧
  ((upload_and_process data w).1 = Return tt →
   vector_ready (upload_and_process data w).2 = Some true ∧
   ∃ ids, trace (upload_and_process data w).2
          = trace w ++ upload_prelude data
            ++ [AddDocuments collection_name (docs_of data) ids] ∧
          fault (trace w ++ upload_prelude data)
            (AddDocuments collection_name (docs_of data) ids) = None).
Proof.
  assert (∀ e, (upload_and_process data w).1 = Raise e →
               vector_ready (upload_and_process data w).2 = vector_ready w)
    as Hraise.
  { intros e He. destruct (upload_spec data w) as (t & _ & _ & [Hu|Hr]).
    - rewrite Hu in He. discriminate.
    - by destruct Hr as (e' & _ & _ & Hv & _). }
  split; [|split].
  - intros e He. unfold chat_enabled. by rewrite (Hraise e He).
  - intros t ev e Hp Hlen Hf.
    destruct (propagates_upload data w) as [_ Hq].
    destruct (Hq t ev e Hp Hlen Hf) as [Hr _]. by apply (Hraise e).
  - intros Hret. destruct (upload_spec data w) as (t & _ & _ & [Hu|Hr]).
    + split; [by rewrite Hu|].
      exists (draws (length (docs_of data)) (entropy w)).1.
      assert (trace (upload_and_process data w).2
              = trace w ++ upload_events data (entropy w)) as Htr
        by by rewrite Hu.
      split; [exact Htr|].
      destruct (fault _ _) as [e|] eqn:Hf; [|done].
      destruct (propagates_upload data w) as [_ Hq].
      destruct (Hq (trace w ++ upload_prelude data)
                  (AddDocuments collection_name (docs_of data)
                     (draws (length (docs_of data)) (entropy w)).1) e)
        as [Hr _].
      * rewrite Htr. unfold upload_events. by rewrite app_assoc.
      * rewrite length_app. lia.
      * exact Hf.
      * congruence.
    + destruct Hr as (e & _ & He & _). congruence.
Qed.

End Claims.

(** * The claims on concrete runs *)

Ltac in_list :=
  repeat first [apply list_elem_of_here | apply list_elem_of_further].





Lemma retrieval_is_mmr_k4_unfiltered_witness :
  Retrieve "pdf_store" retriever first_question
  ∈ trace (session one_turn demo_world) ∧
  search_kwargs retriever !! "k" = Some 4 ∧
  search_kwargs retriever !! "filter" = None.
Proof.
  assert (trace (session one_turn demo_world)
          = trace demo_world ++ trace (session one_turn demo_world)) as H1
    by (vm_compute; reflexivity).
  assert (Retrieve "pdf_store" retriever first_question
          ∈ trace (session one_turn demo_world)) as H2
    by (vm_compute; in_list).
  pose proof (proj1 (retrieval_is_mmr_k4_unfiltered one_turn demo_world)
                _ _ _ _ H1 H2) as (_ & _ & Hk & Hfilter & _).
  split; [exact H2|]. split; [exact Hk|exact Hfilter].
Defined.

Lemma session_id_is_constant_witness :
  RunnableInvoke "abc123" first_question
  ∈ trace (session two_turns demo_world) ∧
  RunnableInvoke "abc123" second_question
  ∈ trace (session two_turns demo_world) ∧
  "abc123" = "abc123".
Proof.
  assert (trace (session two_turns demo_world)
          = trace demo_world ++ trace (session two_turns demo_world)) as H1
    by (vm_compute; reflexivity).
  assert (RunnableInvoke "abc123" first_question
          ∈ trace (session two_turns demo_world)) as H2
    by (vm_compute; in_list).
  assert (RunnableInvoke "abc123" second_question
          ∈ trace (session two_turns demo_world)) as H3
    by (vm_compute; in_list).
  pose proof (session_id_is_constant two_turns demo_world _ _ _ _ _
                H1 H2 H3) as [_ Hsame].
  split; [exact H2|]. split; [exact H3|exact Hsame].
Defined.

Lemma failures_propagate_unretried_witness :
  ([OpenWb "temp.pdf"; FileWrite "temp.pdf" two_pages]
   ++ [PyPDFLoaderLoad "temp.pdf"])
  `prefix_of` trace (run (click_upload two_pages) failing_world) ∧
  parse_fault [OpenWb "temp.pdf"; FileWrite "temp.pdf" two_pages]
    (PyPDFLoaderLoad "temp.pdf") = Some "PdfStreamError" ∧
  (main (click_upload two_pages) failing_world).1 = Raise "PdfStreamError" ∧
  trace (run (click_upload two_pages) failing_world)
  = [OpenWb "temp.pdf"; FileWrite "temp.pdf" two_pages;
     PyPDFLoaderLoad "temp.pdf"].
Proof.
  assert (([OpenWb "temp.pdf"; FileWrite "temp.pdf" two_pages]
           ++ [PyPDFLoaderLoad "temp.pdf"])
          `prefix_of` trace (run (click_upload two_pages) failing_world))
    as H1 by (exists []; vm_compute; reflexivity).
  assert (length (trace failing_world)
          ≤ length [OpenWb "temp.pdf"; FileWrite "temp.pdf" two_pages])
    as H2 by (simpl; lia).
  assert (@fault (demo parse_fault)
            [OpenWb "temp.pdf"; FileWrite "temp.pdf" two_pages]
            (PyPDFLoaderLoad "temp.pdf") = Some "PdfStreamError") as H3
    by reflexivity.
  pose proof (failures_propagate_unretried (click_upload two_pages)
                failing_world _ _ _ H1 H2 H3) as (Hr & Ht & _).
  split; [exact H1|]. split; [exact H3|]. split; [exact Hr|exact Ht].
Defined.

Lemma upload_writes_only_temp_pdf_witness :
  PyPDFLoaderLoad "temp.pdf"
  ∈ trace (upload_and_process two_pages demo_world).2 ∧
  files (upload_and_process two_pages demo_world).2 !! "temp.pdf"
  = Some two_pages ∧
  files (session two_turns demo_world) !! "main.py"
  = files demo_world !! "main.py".
Proof.
  assert (trace (upload_and_process two_pages demo_world).2
          = trace demo_world
            ++ trace (upload_and_process two_pages demo_world).2) as H1
    by (vm_compute; reflexivity).
  assert (PyPDFLoaderLoad "temp.pdf"
          ∈ trace (upload_and_process two_pages demo_world).2) as H2
    by (vm_compute; in_list).
  pose proof (upload_writes_only_temp_pdf two_turns demo_world)
    as (Hother & _ & Hload).
  split; [exact H2|].
  split; [exact (proj2 (Hload _ _ _ H1 H2))|].
  apply Hother. discriminate.
Defined.

Lemma vector_ready_set_only_after_store_witness :
  (upload_and_process two_pages failing_world).1 = Raise "PdfStreamError" ∧
  vector_ready (upload_and_process two_pages failing_world).2 = None ∧
  (upload_and_process two_pages demo_world).1 = Return tt ∧
  vector_ready (upload_and_process two_pages demo_world).2 = Some true.
Proof.
  assert ((upload_and_process two_pages failing_world).1
          = Raise "PdfStreamError") as H1 by (vm_compute; reflexivity).
  assert ((upload_and_process two_pages demo_world).1 = Return tt) as H2
    by (vm_compute; reflexivity).
  pose proof (vector_ready_set_only_after_store two_pages failing_world)
    as (Hraise & _ & _).
  pose proof (vector_ready_set_only_after_store two_pages demo_world)
    as (_ & _ & Hret).
  split; [exact H1|]. split; [exact (proj1 (Hraise _ H1))|].
  split; [exact H2|exact (proj1 (Hret H2))].
Defined.

(** C2.  An upload, a first question and a second question in one session
    of the concrete process: when the second question is asked the
    transcript holds the first turn, and the conversational chain is
    invoked under "abc123" again, yet the history the chain receives is
    empty and the prompt of the chat model holds the system message and
    the second question only. *)
Theorem second_question_gets_empty_history :
  transcript (session one_turn demo_world)
  = [(first_question, "I don't know.")] ∧
  drop (length (trace (session one_turn demo_world)))
    (trace (session two_turns demo_world))
  = ask_events second_question (session one_turn demo_world) ∧
  RagChain second_question [] ∈ trace (session two_turns demo_world) ∧
  ask_prompt second_question (session one_turn demo_world)
  = [SystemMessage
       (qa_system_prompt
          (join_documents
             (search (pdf_store (session one_turn demo_world)) retriever
                (embed second_question))));
     HumanMessage second_question] ∧
  ∀ input history,
    RagChain input history ∈ trace (session two_turns demo_world) →
    history = [].
Proof.
  split; [vm_compute; reflexivity|].
  split; [vm_compute; reflexivity|].
  split; [vm_compute; in_list|].
  split; [reflexivity|].
  intros input history Hin.
  assert (trace (session two_turns demo_world)
          = trace demo_world ++ trace (session two_turns demo_world)) as H1
    by (vm_compute; reflexivity).
  exact (chain_history_is_empty two_turns demo_world _ input history H1 Hin).
Qed.

(** ** The splitter on a text without whitespace *)

Module SplitterFacts.
Import RecursiveCharacterTextSplitter.

Abbreviation to_list := String.list_ascii_of_string.
Abbreviation of_list := String.string_of_list_ascii.

(** One character as a piece. *)
Definition single (c : ascii) : string := String c "".












Lemma length_singles (l : list ascii) : length (single <$> l) = length l.
Proof. apply length_fmap. Qed.



















(** ** The splitter on two parts joined by a separator *)



























End SplitterFacts.

(** ** The splitter *)





Section Splitter.
Context `{Services}.

(** The script's splitter is the one of the library. *)
Hypothesis split_text_library :
  ∀ size overlap text,
    split_text size overlap text
    = RecursiveCharacterTextSplitter.split_text size overlap text.


End Splitter.





(** * The rest of the script: the gates and the messages *)

Section Runs.
Context `{Services}.

(** The state after lines 39-40: the run has passed no text yet and the
    key [vector_ready] is there. *)
Definition prepared (w : world) : world :=
  let w0 := set_screen [] w in
  if bool_decide (vector_ready w0 = None)
  then set_vector_ready (Some false) w0
  else w0.

(** Line 42 and the handler it guards. *)
Definition upload_part (ui : widgets) : io unit :=
  match upload_clicked ui, pdf_file ui with
  | true, Some data => upload_and_process data
  | _, _ => mret tt
  end.

(** The test of line 76. *)
Definition asks (ui : widgets) : bool :=
  ask_clicked ui && negb (String.eqb (user_question ui) "").

Definition please_upload : string :=
  "Please upload and process a PDF to start chatting.".

(** Lines 71-154. *)
Definition chat_part (ui : widgets) : io unit :=
  w ← get;
  if bool_decide (vector_ready w = Some true) then
    when (bool_decide (chat_history w = None))
      (modify (set_chat_history (Some [])));;
    when (asks ui) (ask (user_question ui);; mret tt);;
    render_transcript
  else
    st_write please_upload.

(** The state after lines 72-73: the key [chat_history] is there. *)
Definition opened (w : world) : world :=
  if bool_decide (chat_history w = None)
  then set_chat_history (Some []) w
  else w.

(** The texts lines 150-152 pass to [st.markdown] for a transcript. *)
Definition render_lines (turns : list (string * string)) : list string :=
  concat ((λ qa, ["**You:** " +:+ qa.1; "**Bot:** " +:+ qa.2]) <$> turns).

Definition rendered (w : world) : world :=
  set_screen (screen w ++ render_lines (transcript w)) w.

(** Whether the run starts an upload. *)
Definition uploads (ui : widgets) : bool :=
  upload_clicked ui && bool_decide (is_Some (pdf_file ui)).

Lemma main_parts (ui : widgets) w :
  main ui w = (upload_part ui ≫= λ _, chat_part ui) (prepared w).
Proof.
  unfold main, prepared. rewrite bind_modify, bind_get. cbv zeta.
  destruct (bool_decide (vector_ready (set_screen [] w) = None)).
  - by rewrite when_true, bind_modify.
  - by rewrite when_false, bind_ret.
Qed.

Lemma forM_st_write (turns : list (string * string)) w :
  forM turns (λ qa, st_write ("**You:** " +:+ qa.1);;
                    st_write ("**Bot:** " +:+ qa.2)) w
  = (Return ((λ _, tt) <$> turns),
     set_screen (screen w ++ render_lines turns) w).
Proof.
  unfold st_write.
  revert w. induction turns as [|qa turns IH]; intros w.
  - simpl. f_equal. unfold render_lines. simpl. rewrite app_nil_r.
    by destruct w.
  - cbn [forM].
    rewrite bind_assoc, bind_modify, bind_modify.
    erewrite bind_return by apply IH.
    unfold mret, io_mret, io_ret. rewrite fmap_cons. f_equal.
    apply world_eq; try done. simpl.
    unfold render_lines. rewrite fmap_cons. simpl.
    by rewrite <-!app_assoc.
Qed.

Lemma render_transcript_spec w : render_transcript w = (Return tt, rendered w).
Proof.
  unfold render_transcript. rewrite bind_get.
  by erewrite bind_return by apply forM_st_write.
Qed.

End Runs.

(** * Properties of whole runs *)

Section RunCases.
Context `{Services}.

Ltac fields :=
  cbn [trace entropy files pdf_store vector_ready chat_history screen
       set_trace set_files set_entropy set_pdf_store set_vector_ready
       set_chat_history set_screen fst snd] in *.

Lemma chat_part_disabled (ui : widgets) w :
  chat_enabled w = false →
  chat_part ui w = (Return tt, set_screen (screen w ++ [please_upload]) w).
Proof.
  unfold chat_enabled. intros Hd. unfold chat_part.
  rewrite bind_get, Hd. done.
Qed.

Lemma chat_part_enabled (ui : widgets) w :
  chat_enabled w = true →
  chat_part ui w
  = (when (asks ui) (ask (user_question ui);; mret tt)
     ≫= λ _, render_transcript) (opened w).
Proof.
  unfold chat_enabled. intros He. unfold chat_part, opened.
  rewrite bind_get, He.
  destruct (bool_decide (chat_history w = None)).
  - by rewrite when_true, bind_modify.
  - by rewrite when_false, bind_ret.
Qed.

(** What lines 71-154 come to. *)
Lemma chat_cases (ui : widgets) w :
  (chat_enabled w = false ∧
   chat_part ui w = (Return tt, set_screen (screen w ++ [please_upload]) w)) ∨
  (chat_enabled w = true ∧ asks ui = false ∧
   chat_part ui w = (Return tt, rendered (opened w))) ∨
  (chat_enabled w = true ∧ asks ui = true ∧
   ask (user_question ui) (opened w)
   = (Return (ask_store (user_question ui) (opened w)),
      asked (user_question ui) (opened w)) ∧
   chat_part ui w
   = (Return tt, rendered (asked (user_question ui) (opened w)))) ∨
  (chat_enabled w = true ∧ asks ui = true ∧
   ∃ t e, t `prefix_of` ask_events (user_question ui) (opened w) ∧
          failed_at (opened w) t e ∧
          chat_part ui w
          = (Raise e, set_trace (trace (opened w) ++ t) (opened w))).
Proof.
  destruct (chat_enabled w) eqn:He.
  2: { left. split; [done|]. by apply chat_part_disabled. }
  right. rewrite (chat_part_enabled ui w He).
  destruct (asks ui) eqn:Ha.
  - right. rewrite when_true, bind_assoc.
    destruct (ask_spec (user_question ui) (opened w))
      as [Hr|(t & e & Hp & Hf & Hr)].
    + left. split; [done|]. split; [done|]. split; [done|].
      rewrite (bind_return _ _ _ _ _ Hr), bind_ret.
      apply render_transcript_spec.
    + right. split; [done|]. split; [done|]. exists t, e.
      split; [done|]. split; [done|].
      by rewrite (bind_raise _ _ _ _ _ Hr).
  - left. split; [done|]. split; [done|].
    rewrite when_false, bind_ret. apply render_transcript_spec.
Qed.

(** What a run comes to, by what line 42 does. *)
Lemma run_cases (ui : widgets) w :
  (uploads ui = false ∧ main ui w = chat_part ui (prepared w)) ∨
  (∃ data, uploads ui = true ∧ pdf_file ui = Some data ∧
           upload_and_process data (prepared w)
           = (Return tt, uploaded data (prepared w)) ∧
           main ui w = chat_part ui (uploaded data (prepared w))) ∨
  (∃ data t e, uploads ui = true ∧ pdf_file ui = Some data ∧
               trace (run ui w) = trace w ++ t ∧
               t `prefix_of` upload_events data (entropy w) ∧
               failed_at w t e ∧
               (main ui w).1 = Raise e ∧
               main ui w = upload_and_process data (prepared w) ∧
               vector_ready (run ui w) = vector_ready (prepared w)).
Proof.
  unfold run. rewrite main_parts. unfold upload_part, uploads.
  destruct (upload_clicked ui); [|left; by rewrite bind_ret].
  destruct (pdf_file ui) as [data|]; [|left; by rewrite bind_ret].
  right.
  destruct (upload_spec data (prepared w)) as (t & Ht & Hp & [Hr|Hr]).
  - left. exists data. split; [done|]. split; [done|]. split; [done|].
    by rewrite (bind_return _ _ _ _ _ Hr).
  - right. destruct Hr as (e & Hf & He & Hv & _). exists data, t, e.
    destruct (upload_and_process data (prepared w)) as [[[]|e'] w'] eqn:Hu;
      simpl in He; [done|]. injection He as ->.
    rewrite (bind_raise _ _ _ _ _ Hu). simpl in *.
    assert (trace (prepared w) = trace w) as Htr
      by (unfold prepared; cbv zeta; by case_bool_decide).
    assert (entropy (prepared w) = entropy w) as Hen
      by (unfold prepared; cbv zeta; by case_bool_decide).
    rewrite Htr in Ht. rewrite Hen in Hp.
    unfold failed_at in *. rewrite Htr in Hf. done.
Qed.

Lemma prepared_fields w :
  trace (prepared w) = trace w ∧ entropy (prepared w) = entropy w ∧
  files (prepared w) = files w ∧ pdf_store (prepared w) = pdf_store w ∧
  chat_history (prepared w) = chat_history w ∧ screen (prepared w) = [] ∧
  vector_ready (prepared w) = Some (default false (vector_ready w)).
Proof.
  unfold prepared. cbv zeta. case_bool_decide as Hv; fields.
  - by rewrite Hv.
  - destruct (vector_ready w); done.
Qed.

Lemma opened_fields w :
  trace (opened w) = trace w ∧ entropy (opened w) = entropy w ∧
  files (opened w) = files w ∧ pdf_store (opened w) = pdf_store w ∧
  vector_ready (opened w) = vector_ready w ∧ screen (opened w) = screen w ∧
  transcript (opened w) = transcript w ∧ is_Some (chat_history (opened w)).
Proof.
  unfold opened, transcript. case_bool_decide as Hh; fields.
  - rewrite Hh. eauto 10.
  - destruct (chat_history w); [eauto 10|done].
Qed.

(** Lines 71-154 leave the flag, the files, the collection and the
    generator as they are. *)
Lemma chat_part_frame (ui : widgets) w :
  vector_ready (chat_part ui w).2 = vector_ready w ∧
  files (chat_part ui w).2 = files w ∧
  pdf_store (chat_part ui w).2 = pdf_store w ∧
  entropy (chat_part ui w).2 = entropy w.
Proof.
  destruct (opened_fields w) as (_ & He & Hf & Hs & Hv & _).
  destruct (chat_cases ui w)
    as [[_ ->]|[(_ & _ & ->)|[(_ & _ & _ & ->)|(_ & _ & t & e & _ & _ & ->)]]];
    by fields.
Qed.

(** The flag after a run: set by an upload that returned, and otherwise the
    flag the run started with, [False] standing for a missing key. *)
Lemma run_flag (ui : widgets) w :
  vector_ready (run ui w) = Some true ∨
  vector_ready (run ui w) = Some (default false (vector_ready w)).
Proof.
  destruct (prepared_fields w) as (_ & _ & _ & _ & _ & _ & Hv).
  destruct (run_cases ui w)
    as [[_ Hm]|[(data & _ & _ & _ & Hm)|(data & t & e & Hr)]].
  - right. unfold run. rewrite Hm.
    destruct (chat_part_frame ui (prepared w)) as (-> & _). done.
  - left. unfold run. rewrite Hm.
    by destruct (chat_part_frame ui (uploaded data (prepared w))) as (-> & _).
  - right. destruct Hr as (_ & _ & _ & _ & _ & _ & _ & ->). done.
Qed.

(** X1.  After a run the key [vector_ready] is there, and a flag that is
    [True] stays [True] through every later run, whatever the run does and
    whichever of its calls fails. *)
Theorem vector_ready_never_reset (uis : list widgets) (ui : widgets)
    (w : world) :
  is_Some (vector_ready (run ui w)) ∧
  (vector_ready w = Some true → vector_ready (session uis w) = Some true).
Proof.
  split.
  - destruct (run_flag ui w) as [->| ->]; eauto.
  - revert w. unfold session.
    induction uis as [|ui' uis IH]; intros w Hw; [done|].
    cbn [foldl]. apply IH.
    destruct (run_flag ui' w) as [->|Hr]; [done|].
    by rewrite Hr, Hw.
Qed.

(** The calls of lines 71-154: those of a question, up to the first that
    fails, and none unless the flag is set, "Ask" was clicked and the
    question is not empty. *)
Lemma chat_part_trace (ui : widgets) w :
  ∃ t, trace (chat_part ui w).2 = trace w ++ t ∧
       t `prefix_of` ask_events (user_question ui) (opened w) ∧
       (t ≠ [] → chat_enabled w = true ∧ asks ui = true).
Proof.
  destruct (opened_fields w) as (Ht & _).
  destruct (chat_cases ui w)
    as [[_ ->]|[(_ & _ & ->)|[(He & Ha & _ & ->)
                             |(He & Ha & t & e & Hp & _ & ->)]]].
  - exists []. fields. rewrite app_nil_r. split; [done|].
    split; [apply prefix_nil|done].
  - exists []. unfold rendered. fields. rewrite Ht, app_nil_r.
    split; [done|]. split; [apply prefix_nil|done].
  - exists (ask_events (user_question ui) (opened w)).
    unfold rendered, asked. fields. by rewrite Ht.
  - exists t. fields. by rewrite Ht.
Qed.

Lemma not_in_upload_events (data : list Byte.byte) (r : rng) (ev : event) :
  ev ∈ upload_events data r →
  match ev with
  | RunnableInvoke _ _ | RagChain _ _ | Retrieve _ _ _ | ChatCompletion _ _ =>
      False
  | _ => True
  end.
Proof.
  unfold upload_events, upload_prelude.
  rewrite !elem_of_app, !elem_of_cons.
  rewrite list_elem_of_fmap, elem_of_replicate, !elem_of_nil.
  intros [[[?|[?|[?|[]]]]|[(page & ? & _)|[[?|[]]|[? _]]]]|[?|[]]];
    by subst.
Qed.

Lemma in_ask_events (question : string) w (ev : event) :
  ev ∈ ask_events question w →
  match ev with
  | AstraDBVectorStoreInit _ _ => True
  | RunnableInvoke sid input => sid = session_id_literal ∧ input = question
  | RagChain input history => input = question ∧ history = []
  | Retrieve c cfg query =>
      c = collection_name ∧ cfg = retriever ∧ query = question
  | ChatCompletion llm prompt =>
      llm = chat_model ∧ prompt = ask_prompt question w
  | _ => False
  end.
Proof.
  unfold ask_events. rewrite !elem_of_cons, elem_of_nil.
  intros [?|[?|[?|[?|[?|[]]]]]]; by subst.
Qed.

(** The calls of a run: those of an upload, if the run starts one, up to
    the first that fails, and then those of lines 71-154. *)
Lemma run_trace (ui : widgets) w :
  ∃ tu tq,
    trace (run ui w) = trace w ++ tu ++ tq ∧
    (uploads ui = false → tu = []) ∧
    (∀ data, pdf_file ui = Some data →
             tu `prefix_of` upload_events data (entropy w)) ∧
    (tq ≠ [] →
     asks ui = true ∧
     ∃ w1, tq `prefix_of` ask_events (user_question ui) w1 ∧
           (vector_ready w = Some true ∨
            ∃ data, uploads ui = true ∧ pdf_file ui = Some data ∧
                    (upload_and_process data (prepared w)).1 = Return tt)).
Proof.
  destruct (prepared_fields w) as (Ht & He & _ & _ & _ & _ & Hv).
  destruct (run_cases ui w)
    as [[Hu Hm]|[(data & Hu & Hd & Hup & Hm)|(data & t & e & Hr)]].
  - destruct (chat_part_trace ui (prepared w)) as (tq & Htq & Hp & Hne).
    exists [], tq. unfold run. rewrite Hm, Htq, Ht.
    split; [done|]. split; [done|]. split; [intros; apply prefix_nil|].
    intros Hq. destruct (Hne Hq) as [Hen Ha]. split; [done|].
    eexists. split; [done|]. left.
    unfold chat_enabled in Hen. apply bool_decide_eq_true in Hen.
    rewrite Hv in Hen. destruct (vector_ready w) as [[]|]; by simplify_eq.
  - destruct (chat_part_trace ui (uploaded data (prepared w)))
      as (tq & Htq & Hp & Hne).
    exists (upload_events data (entropy w)), tq.
    unfold run. rewrite Hm, Htq. unfold uploaded at 1. fields.
    rewrite Ht, He, <-app_assoc. split; [done|].
    split; [by rewrite Hu|].
    split; [intros data' Hd'; by simplify_eq|].
    intros Hq. destruct (Hne Hq) as [_ Ha]. split; [done|].
    eexists. split; [done|]. right. exists data. by rewrite Hup.
  - destruct Hr as (Hu & Hd & Htr & Hp & _ & _ & _ & _).
    exists t, []. rewrite app_nil_r. split; [done|].
    split; [by rewrite Hu|].
    split; [intros data' Hd'; by simplify_eq|done].
Qed.

(** X2.  Line 42: a run in which "Upload & Process" was not clicked, or no
    file is in the uploader, writes no file, draws no identifier and leaves
    the collection as it is; the calls it makes are those of a question. *)
Theorem upload_needs_click_and_file (ui : widgets) (w : world) :
  upload_clicked ui = false ∨ pdf_file ui = None →
  files (run ui w) = files w ∧
  pdf_store (run ui w) = pdf_store w ∧
  entropy (run ui w) = entropy w ∧
  ∃ t w1, trace (run ui w) = trace w ++ t ∧
          t `prefix_of` ask_events (user_question ui) w1.
Proof.
  intros Hgate.
  assert (uploads ui = false) as Hu.
  { unfold uploads. destruct Hgate as [-> | ->]; [done|].
    by rewrite andb_comm. }
  destruct (prepared_fields w) as (Ht & He & Hf & Hs & _).
  destruct (run_cases ui w)
    as [[_ Hm]|[(data & Hu' & _)|(data & t & e & Hu' & _)]];
    [|congruence..].
  unfold run. rewrite Hm.
  destruct (chat_part_frame ui (prepared w)) as (_ & -> & -> & ->).
  destruct (chat_part_trace ui (prepared w)) as (tq & -> & Hp & _).
  rewrite Ht. eauto 10.
Qed.

(** X3.  Lines 71 and 76: when a run invokes the conversational chain,
    "Ask" was clicked, the input of the chain is the text of the question
    box, that text is not empty, and the flag was [True] when the run
    started or an upload of this run has returned. *)
Theorem chain_needs_flag_click_and_question (ui : widgets) (w : world)
    (t : list event) (sid input : string) :
  trace (run ui w) = trace w ++ t →
  RunnableInvoke sid input ∈ t →
  ask_clicked ui = true ∧
  input = user_question ui ∧
  input ≠ "" ∧
  (vector_ready w = Some true ∨
   ∃ data, upload_clicked ui = true ∧ pdf_file ui = Some data ∧
           (upload_and_process data (prepared w)).1 = Return tt).
Proof.
  intros Ht Hin.
  destruct (run_trace ui w) as (tu & tq & Htr & Hno & Hup & Hq).
  rewrite Ht in Htr. apply app_inv_head in Htr as ->.
  apply elem_of_app in Hin as [Hin|Hin].
  - exfalso. destruct (uploads ui) eqn:Hu.
    + unfold uploads in Hu. apply andb_true_iff in Hu as [_ Hf].
      apply bool_decide_eq_true in Hf as [data Hd].
      destruct (Hup data Hd) as [k Hk].
      apply (not_in_upload_events data (entropy w) (RunnableInvoke sid input)).
      rewrite Hk. apply elem_of_app. by left.
    + rewrite Hno in Hin by done. by apply elem_of_nil in Hin.
  - destruct Hq as (Ha & w1 & [k Hk] & Hready).
    { intros ->. by apply elem_of_nil in Hin. }
    assert (RunnableInvoke sid input ∈ ask_events (user_question ui) w1)
      as Hin' by (rewrite Hk; apply elem_of_app; by left).
    apply in_ask_events in Hin' as [_ ->].
    unfold asks in Ha. apply andb_true_iff in Ha as [Hc Hne].
    split; [done|]. split; [done|].
    split.
    { intros Heq. rewrite Heq in Hne. done. }
    destruct Hready as [?|(data & Hu & Hd & Hr)]; [by left|].
    right. exists data. unfold uploads in Hu.
    apply andb_true_iff in Hu as [? _]. done.
Qed.

Lemma transcript_rendered w : transcript (rendered w) = transcript w.
Proof. done. Qed.

Lemma chat_enabled_chat_part (ui : widgets) w :
  chat_enabled (chat_part ui w).2 = chat_enabled w.
Proof.
  unfold chat_enabled.
  by destruct (chat_part_frame ui w) as (-> & _).
Qed.

(** The texts passed when lines 71-154 return: those passed before, and
    then the transcript or the request to upload. *)
Lemma chat_part_screen (ui : widgets) w :
  (chat_part ui w).1 = Return tt →
  screen (chat_part ui w).2
  = screen w
    ++ (if chat_enabled w then render_lines (transcript (chat_part ui w).2)
        else [please_upload]).
Proof.
  destruct (opened_fields w) as (_ & _ & _ & _ & _ & Hs & _).
  destruct (chat_cases ui w)
    as [[He ->]|[(He & _ & ->)|[(He & _ & _ & ->)
                               |(_ & _ & t & e & _ & _ & ->)]]];
    rewrite ?He; intros Hr; [done| | |done].
  - unfold rendered at 1. fields. by rewrite Hs, transcript_rendered.
  - unfold rendered at 1, asked at 1. fields.
    by rewrite Hs, transcript_rendered.
Qed.

(** X4.  Lines 67 and 150-154: the texts a run that returns passes to
    [st.success], [st.markdown] and [st.info] there, in the order of the
    calls and as it passes them.  First the notice of the upload, to
    [st.success], if the run made an upload; then, when the flag is
    [True], the whole transcript, for each turn "**You:** " with the
    question and "**Bot:** " with the answer, to [st.markdown], the turn
    of this run included; and otherwise the request to upload, to
    [st.info]. *)
Theorem messages_of_a_run (ui : widgets) (w : world) :
  (main ui w).1 = Return tt →
  screen (run ui w)
  = (if uploads ui then ["PDF Processed and Stored!"] else [])
    ++ (if chat_enabled (run ui w)
        then render_lines (transcript (run ui w))
        else [please_upload]).
Proof.
  destruct (prepared_fields w) as (_ & _ & _ & _ & _ & Hs & _).
  unfold run.
  destruct (run_cases ui w)
    as [[Hu Hm]|[(data & Hu & _ & _ & Hm)|(data & t & e & Hr)]].
  - rewrite Hm, Hu. intros Hret.
    rewrite (chat_part_screen _ _ Hret), chat_enabled_chat_part, Hs. done.
  - rewrite Hm, Hu. intros Hret.
    rewrite (chat_part_screen _ _ Hret), chat_enabled_chat_part.
    unfold uploaded at 1. fields. by rewrite Hs.
  - destruct Hr as (_ & _ & _ & _ & _ & -> & _). done.
Qed.

(** ** What an upload and a failing run leave alone *)

Definition same_history (w w' : world) : Prop :=
  chat_history w' = chat_history w.

Global Instance same_history_preorder : PreOrder same_history.
Proof.
  unfold same_history. split.
  - by intros w.
  - intros w1 w2 w3 H1 H2. by rewrite H2.
Qed.

Ltac frame R :=
  lazymatch goal with
  | |- preserves _ (mret _) => apply (preserves_ret R)
  | |- preserves _ (raise _) => apply (preserves_raise R)
  | |- preserves _ get => apply (preserves_get R)
  | |- preserves _ (when _ _) => apply (preserves_when R)
  | |- preserves _ (forM _ _) => apply (preserves_forM R); intros ?
  | |- preserves _ (repeatM _ _) => apply (preserves_repeatM R)
  | |- preserves _ (modify _) => apply (preserves_modify R); intros ?
  | |- preserves _ (call _ _) => apply (preserves_call R); [intros ?|]
  | |- preserves _ (_ ≫= _) => apply (preserves_bind R); [|intros ?]
  | |- preserves _ (match ?x with _ => _ end) => destruct x
  | |- preserves _ (let '(_, _) := ?x in _) => destruct x
  end.

(** Lines 43-67 do not touch the transcript. *)
Lemma upload_keeps_history (data : list Byte.byte) w :
  chat_history (upload_and_process data w).2 = chat_history w.
Proof.
  assert (∀ docs ids, preserves same_history (add_documents docs ids))
    as Hadd.
  { intros docs ids w'. unfold add_documents. cbv zeta.
    by destruct (fault _ _). }
  revert w. change (preserves same_history (upload_and_process data)).
  unfold upload_and_process, open_wb_write, PyPDFLoader_load,
    splitter_split_text, AstraDBVectorStore_init, str_uuid4, draw, st_write.
  repeat (frame same_history); try done; apply Hadd.
Qed.

Lemma uploaded_trace (data : list Byte.byte) w :
  trace (uploaded data w) = trace w ++ upload_events data (entropy w).
Proof. done. Qed.

Lemma uploaded_transcript (data : list Byte.byte) w :
  transcript (uploaded data w) = transcript w.
Proof. done. Qed.

(** A run that raises has made a call that failed, its last. *)
Lemma run_raise_failed (ui : widgets) w e :
  (main ui w).1 = Raise e →
  ∃ t, trace (run ui w) = trace w ++ t ∧ failed_at w t e ∧
       transcript (run ui w) = transcript w.
Proof.
  destruct (prepared_fields w) as (Ht & _ & _ & _ & Hh & _).
  assert (transcript (prepared w) = transcript w) as Htp
    by (unfold transcript; by rewrite Hh).
  assert (∀ w0 : world,
            (chat_part ui w0).1 = Raise e →
            ∃ t, trace (chat_part ui w0).2 = trace w0 ++ t ∧
                 failed_at w0 t e ∧
                 transcript (chat_part ui w0).2 = transcript w0) as Hchat.
  { intros w0.
    destruct (opened_fields w0) as (Hto & _ & _ & _ & _ & _ & Htr & _).
    destruct (chat_cases ui w0)
      as [[_ ->]|[(_ & _ & ->)|[(_ & _ & _ & ->)
                               |(_ & _ & t & e' & _ & Hf & ->)]]];
      [done..|].
    intros [= ->]. exists t. fields. rewrite Hto. split; [done|].
    split; [|exact Htr].
    unfold failed_at in *. by rewrite Hto in Hf. }
  unfold run.
  destruct (run_cases ui w)
    as [[_ Hm]|[(data & _ & _ & Hup & Hm)|(data & t & e' & Hr)]].
  - rewrite Hm. intros He. destruct (Hchat _ He) as (t & Htr & Hf & Hts).
    exists t. rewrite Htr, Hts, Ht, Htp. split; [done|]. split; [|done].
    unfold failed_at in *. by rewrite Ht in Hf.
  - rewrite Hm. intros He. destruct (Hchat _ He) as (t & Htr & Hf & Hts).
    exists (upload_events data (entropy (prepared w)) ++ t).
    rewrite Htr, Hts, uploaded_trace, uploaded_transcript, Htp, Ht.
    rewrite <-app_assoc. split; [done|]. split; [|done].
    eapply failed_at_app; [|exact Hf]. by rewrite uploaded_trace, Ht.
  - destruct Hr as (_ & _ & Htr & _ & Hf & He & Hm & _).
    unfold run in Htr. rewrite He. intros [= ->].
    exists t. split; [done|]. split; [done|].
    rewrite Hm. unfold transcript.
    by rewrite upload_keeps_history, Hh.
Qed.

(** X5.  How a run ends.  A run raises only when one of its calls has
    failed: the run then stops at that call with the exception of the
    call, and the transcript is as the run found it.  A run that returns
    has made no call that failed.  So nothing but a failing call ends a
    run early; the loader is never given a path that is not a file. *)
Theorem run_raises_only_on_failed_call (ui : widgets) (w : world) :
  match (main ui w).1 with
  | Raise e =>
      ∃ t ev, trace (run ui w) = trace w ++ t ++ [ev] ∧
              fault (trace w ++ t) ev = Some e ∧
              transcript (run ui w) = transcript w
  | Return _ =>
      ∀ t ev, (trace w ++ t ++ [ev]) `prefix_of` trace (run ui w) →
              fault (trace w ++ t) ev = None
  end.
Proof.
  destruct (main ui w).1 as [[]|e] eqn:Hm.
  - intros t ev Hp.
    destruct (fault (trace w ++ t) ev) as [e|] eqn:Hf; [|done].
    destruct (propagates_main ui w) as [_ Hq].
    destruct (Hq (trace w ++ t) ev e) as [Hr _]; [| |done|].
    + by rewrite <-app_assoc.
    + rewrite length_app. lia.
    + unfold run in Hr. congruence.
  - destruct (run_raise_failed ui w e Hm)
      as (t & Ht & (t' & ev & -> & Hf) & Htr).
    by exists t', ev.
Qed.

(** ** The collection over a session *)

(** The collection is as it was unless [add_documents] was called. *)
Definition store_by_add (w w' : world) : Prop :=
  ∃ t, trace w' = trace w ++ t ∧
       ((∀ c docs ids, AddDocuments c docs ids ∉ t) →
        pdf_store w' = pdf_store w).

(** No identifier leaves the collection. *)
Definition store_keys_kept (w w' : world) : Prop :=
  ∀ i, is_Some (pdf_store w !! i) → is_Some (pdf_store w' !! i).

Global Instance store_by_add_preorder : PreOrder store_by_add.
Proof.
  split.
  - intros w. exists []. by rewrite app_nil_r.
  - intros w1 w2 w3 (t1 & H1 & S1) (t2 & H2 & S2). exists (t1 ++ t2).
    rewrite H2, H1, app_assoc. split; [done|]. intros Hno.
    rewrite S2, S1; [done|..]; intros c docs ids Hin;
      apply (Hno c docs ids), elem_of_app; auto.
Qed.

Global Instance store_keys_kept_preorder : PreOrder store_keys_kept.
Proof.
  split.
  - by intros w i.
  - intros w1 w2 w3 H1 H2 i Hi. by apply H2, H1.
Qed.

Lemma add_entries_is_Some (entries : list (string * Document))
    (s : gmap string (string * vector)) (i : string) :
  is_Some (s !! i) → is_Some (add_entries entries s !! i).
Proof.
  revert s. induction entries as [|e entries IH]; intros s Hi; [done|].
  rewrite add_entries_cons. apply IH. rewrite lookup_insert_is_Some.
  destruct (decide (e.1 = i)); auto.
Qed.

Lemma store_keys_kept_steps : script_steps store_keys_kept.
Proof.
  split; intros; intros i Hi; try done.
  simpl. by apply add_entries_is_Some.
Qed.

Lemma preserves_store_by_add (ui : widgets) :
  preserves store_by_add (main ui).
Proof.
  assert (∀ docs ids, preserves store_by_add (add_documents docs ids))
    as Hadd.
  { intros docs ids w. unfold add_documents. cbv zeta.
    exists [AddDocuments collection_name docs ids].
    destruct (fault _ _); (split; [done|]); intros Hno;
      by destruct (Hno collection_name docs ids); left. }
  unfold main, upload_and_process, ask, conversational_rag_chain_invoke,
    rag_chain, history_aware_retriever, question_answer_chain,
    retriever_invoke, model_invoke, render_transcript, open_wb_write,
    PyPDFLoader_load, splitter_split_text, AstraDBVectorStore_init,
    str_uuid4, draw, st_write.
  repeat (frame store_by_add);
    first [ apply Hadd
          | exists []; split; [by rewrite app_nil_r|done]
          | eexists [_]; split; [done|done] ].
Qed.

Lemma session_preserves (R : relation world) `{!PreOrder R} :
  (∀ ui, preserves R (main ui)) → ∀ uis w, R w (session uis w).
Proof.
  intros HR uis. unfold session.
  induction uis as [|ui uis IH]; intros w; [done|].
  cbn [foldl]. etrans; [exact (HR ui w)|apply IH].
Qed.

(** X6.  A session that makes no call of [add_documents] leaves the
    collection as it found it: questions, uploads that fail before the
    store is called and the rendering of the page never write to it. *)
Theorem collection_changes_only_by_add_documents (uis : list widgets)
    (w : world) (t : list event) :
  trace (session uis w) = trace w ++ t →
  (∀ c docs ids, AddDocuments c docs ids ∉ t) →
  pdf_store (session uis w) = pdf_store w.
Proof.
  intros Ht Hno.
  destruct (session_preserves store_by_add preserves_store_by_add uis w)
    as (t' & Ht' & Hs).
  rewrite Ht in Ht'. apply app_inv_head in Ht' as <-. by apply Hs.
Qed.

(** X7.  No identifier that is in the collection leaves it in a session,
    whatever is clicked and whichever calls fail. *)
Theorem collection_never_loses_an_identifier (uis : list widgets)
    (w : world) (i : string) :
  is_Some (pdf_store w !! i) → is_Some (pdf_store (session uis w) !! i).
Proof. apply (preserves_session store_keys_kept store_keys_kept_steps). Qed.

(** ** A question that is answered *)

(** X8.  Lines 77-148 on a question that is answered.  The run makes five
    calls and no other: the vector store is opened, the chain is invoked
    under "abc123", the retrieval chain runs with no history, the
    retriever is asked the question as the user typed it, and the chat
    model is asked once, with the system prompt filled with the documents
    found and then the question.  The completion is the answer: it goes to
    the end of the transcript with the question, and into [store] under
    "abc123".  The files, the collection, the generator, the flag and the
    page are as they were. *)
Theorem question_is_answered_from_the_collection (question : string)
    (w : world) (store : gmap string (list message)) :
  (ask question w).1 = Return store →
  let context := search (pdf_store w) retriever (embed question) in
  let prompt := [SystemMessage (qa_system_prompt (join_documents context));
                 HumanMessage question] in
  let answer := complete chat_model prompt in
  trace (ask question w).2
  = trace w ++ [AstraDBVectorStoreInit "pdf_store" "mistral-embed";
                RunnableInvoke "abc123" question;
                RagChain question [];
                Retrieve "pdf_store" retriever question;
                ChatCompletion chat_model prompt] ∧
  chat_history (ask question w).2
  = Some (transcript w ++ [(question, answer)]) ∧
  store = {["abc123" := [HumanMessage question; AIMessage answer]]} ∧
  files (ask question w).2 = files w ∧
  pdf_store (ask question w).2 = pdf_store w ∧
  entropy (ask question w).2 = entropy w ∧
  vector_ready (ask question w).2 = vector_ready w ∧
  screen (ask question w).2 = screen w.
Proof.
  intros Hr. pose proof (ask_returns_asked _ _ _ Hr) as Ha.
  rewrite Ha in Hr. injection Hr as <-. rewrite Ha. done.
Qed.

(** ** What an upload stores *)

(** X9.  Lines 53-65 as a lookup.  After an upload that returns, when the
    identifiers drawn are all different, the [k]-th identifier leads to
    the text of the [k]-th chunk and the embedding of that text, and every
    identifier that was not drawn leads to what it led to before. *)
Theorem uploaded_chunk_is_found_under_its_identifier (data : list Byte.byte)
    (w : world) (k : nat) (i text : string) :
  (upload_and_process data w).1 = Return tt →
  NoDup (draws (length (texts_of data)) (entropy w)).1 →
  (draws (length (texts_of data)) (entropy w)).1 !! k = Some i →
  texts_of data !! k = Some text →
  pdf_store (upload_and_process data w).2 !! i = Some (text, embed text) ∧
  ∀ other,
    other ∉ (draws (length (texts_of data)) (entropy w)).1 →
    pdf_store (upload_and_process data w).2 !! other = pdf_store w !! other.
Proof.
  intros Hr Hnd Hi Ht.
  pose proof (surjective_pairing (upload_and_process data w)) as Hu.
  rewrite Hr in Hu. apply upload_returns_uploaded in Hu. rewrite Hu.
  unfold uploaded. fields. rewrite docs_of_length.
  set (ids := (draws (length (texts_of data)) (entropy w)).1) in *.
  assert ((zip ids (docs_of data)).*1 = ids) as Hfst.
  { apply fst_zip. unfold ids. rewrite draws_length, docs_of_length. lia. }
  split.
  - apply (add_entries_lookup_in _ _ k i {| page_content := text |}).
    + by rewrite Hfst.
    + apply lookup_zip_with_Some. exists i, {| page_content := text |}.
      split; [done|]. split; [done|].
      unfold docs_of. by rewrite list_lookup_fmap, Ht.
  - intros other Ho. apply add_entries_lookup_notin. by rewrite Hfst.
Qed.

(** X10.  A file from which no text comes, because it has no page or
    because the splitter returns no chunk for any page.  When the upload
    returns, it has drawn no identifier, it has called [add_documents]
    with no document, the collection is as it was, and the flag is
    [True]: the question section opens on a collection to which the file
    has added nothing. *)
Theorem upload_without_text_enables_chat (data : list Byte.byte)
    (w : world) :
  texts_of data = [] →
  (upload_and_process data w).1 = Return tt →
  trace (upload_and_process data w).2
  = trace w
    ++ [OpenWb "temp.pdf"; FileWrite "temp.pdf" data;
        PyPDFLoaderLoad "temp.pdf"]
    ++ ((λ page, SplitText 1000 200 (page_content page)) <$> pdf_pages data)
    ++ [AstraDBVectorStoreInit "pdf_store" "mistral-embed";
        AddDocuments "pdf_store" [] []] ∧
  pdf_store (upload_and_process data w).2 = pdf_store w ∧
  entropy (upload_and_process data w).2 = entropy w ∧
  chat_enabled (upload_and_process data w).2 = true.
Proof.
  intros Ht Hr.
  pose proof (surjective_pairing (upload_and_process data w)) as Hu.
  rewrite Hr in Hu. apply upload_returns_uploaded in Hu. rewrite Hu.
  unfold uploaded, upload_events, upload_prelude, docs_of. fields.
  rewrite Ht. cbn [fmap list_fmap length replicate draws zip_with fst snd
                   add_entries foldl].
  rewrite <-!app_assoc. done.
Qed.

(** ** What the chat model is asked *)

(** The completion requests of a question: from the chat model of line 78,
    with the system prompt of line 110 and the question. *)
Definition answer_request (ev : event) : Prop :=
  match ev with
  | ChatCompletion llm prompt =>
      llm = chat_model ∧
      ∃ context question,
        prompt = [SystemMessage (qa_system_prompt context);
                  HumanMessage question]
  | _ => True
  end.

Definition logs_answer_requests (w w' : world) : Prop :=
  ∃ t, trace w' = trace w ++ t ∧ Forall answer_request t.

Global Instance logs_answer_requests_preorder :
  PreOrder logs_answer_requests.
Proof.
  split.
  - intros w. exists []. by rewrite app_nil_r.
  - intros w1 w2 w3 (t1 & H1 & F1) (t2 & H2 & F2). exists (t1 ++ t2).
    rewrite H2, H1, app_assoc. split; [done|]. by apply Forall_app.
Qed.

Lemma preserves_logs_answer_requests (ui : widgets) :
  preserves logs_answer_requests (main ui).
Proof.
  intros w. fold (run ui w).
  destruct (run_trace ui w) as (tu & tq & Htr & Hno & Hup & Hq).
  exists (tu ++ tq). split; [done|]. apply Forall_app. split.
  - destruct (uploads ui) eqn:Hu; [|by rewrite Hno].
    unfold uploads in Hu. apply andb_true_iff in Hu as [_ Hf].
    apply bool_decide_eq_true in Hf as [data Hd].
    destruct (Hup data Hd) as [k Hk].
    apply Forall_forall. intros ev Hin.
    assert (ev ∈ upload_events data (entropy w)) as Hin'
      by (rewrite Hk; apply elem_of_app; by left).
    apply not_in_upload_events in Hin'. by destruct ev.
  - destruct tq as [|ev0 tq]; [done|].
    destruct Hq as (_ & w1 & [k Hk] & _); [done|].
    apply Forall_forall. intros ev Hin.
    assert (ev ∈ ask_events (user_question ui) w1) as Hin'
      by (rewrite Hk; apply elem_of_app; by left).
    apply in_ask_events in Hin'. destruct ev; try done.
    destruct Hin' as [-> ->]. split; [done|]. eauto.
Qed.

(** X11.  Every completion a session asks for goes to the chat model of
    line 78 and carries two messages, the system prompt of line 110 with a
    context and a question: the prompt of line 93, which asks the model to
    rewrite a question in the light of the history, is never sent. *)
Theorem model_is_never_asked_to_rewrite_a_question (uis : list widgets)
    (w : world) (t : list event) (llm : ChatMistralAI)
    (prompt : list message) :
  trace (session uis w) = trace w ++ t →
  ChatCompletion llm prompt ∈ t →
  llm = chat_model ∧
  (∃ context question,
     prompt = [SystemMessage (qa_system_prompt context);
               HumanMessage question]) ∧
  SystemMessage contextualize_q_system_prompt ∉ prompt.
Proof.
  intros Ht Hin.
  destruct (session_preserves logs_answer_requests
              preserves_logs_answer_requests uis w) as (t' & Ht' & Hall).
  rewrite Ht in Ht'. apply app_inv_head in Ht' as <-.
  eapply Forall_forall in Hall; [|exact Hin].
  destruct Hall as (-> & context & question & ->).
  split; [done|]. split; [eauto|].
  rewrite !elem_of_cons, elem_of_nil.
  unfold qa_system_prompt, contextualize_q_system_prompt.
  intros [Heq|[Heq|[]]]; simplify_eq/=.
Qed.

(** ** The dictionary of histories, had it been kept *)

Definition log_grows (w w' : world) : Prop := trace w `prefix_of` trace w'.

Global Instance log_grows_preorder : PreOrder log_grows.
Proof.
  unfold log_grows. split.
  - by intros w.
  - intros w1 w2 w3 H1 H2. by etrans.
Qed.

(** The call of the wrapper with a store that holds [history] under
    [session_id]. *)
Lemma wrapper_passes_history (store : gmap string (list message))
    (input session_id : string) (history : list message) w :
  store !! session_id = Some history →
  fault (trace w) (RunnableInvoke session_id input) = None →
  (trace w ++ [RunnableInvoke session_id input; RagChain input history])
  `prefix_of`
  trace (conversational_rag_chain_invoke store input session_id w).2.
Proof.
  intros Hs Hf. unfold conversational_rag_chain_invoke, call.
  rewrite Hf. unfold get_session_history. rewrite Hs.
  set (w1 := set_trace _ w).
  change (trace w ++ [RunnableInvoke session_id input;
                      RagChain input history])
    with (trace w ++ [RunnableInvoke session_id input]
          ++ [RagChain input history]).
  rewrite app_assoc. change (trace w ++ [RunnableInvoke session_id input])
    with (trace w1).
  unfold rag_chain at 1.
  destruct (fault (trace w1) (RagChain input history)) as [e|] eqn:Hf1.
  - by rewrite (bind_call_fails _ _ _ _ _ Hf1).
  - rewrite (bind_call_runs _ _ _ _ Hf1).
    set (w2 := set_trace _ w1).
    change (trace w1 ++ [RagChain input history]) with (trace w2).
    revert w2. generalize (set_trace (trace w1 ++ [RagChain input history]) w1).
    change (preserves log_grows
              ((context ← history_aware_retriever input history;
                question_answer_chain input history context)
               ≫= λ answer,
                   mret (answer,
                         <[session_id := history
                                         ++ [HumanMessage input;
                                             AIMessage answer]]> store))).
    unfold history_aware_retriever, question_answer_chain,
      retriever_invoke, model_invoke.
    repeat (frame log_grows); try done; by apply prefix_app_r.
Qed.

(** X12.  Lines 132-147, for a dictionary [store] that is kept between two
    invocations.  After an invocation that returns, the dictionary holds
    under the session identifier the messages it held before, then the
    question and the answer; [get_session_history] finds them there and
    changes nothing; and a second invocation under the same identifier
    hands them to the chain as the history. *)
Theorem kept_store_gives_the_chain_its_history
    (store store1 : gmap string (list message))
    (sid question1 answer1 question2 : string) (w : world) :
  (conversational_rag_chain_invoke store question1 sid w).1
  = Return (answer1, store1) →
  let w1 := (conversational_rag_chain_invoke store question1 sid w).2 in
  let history := default [] (store !! sid)
                 ++ [HumanMessage question1; AIMessage answer1] in
  get_session_history sid store1 = (store1, history) ∧
  (fault (trace w1) (RunnableInvoke sid question2) = None →
   (trace w1 ++ [RunnableInvoke sid question2; RagChain question2 history])
   `prefix_of`
   trace (conversational_rag_chain_invoke store1 question2 sid w1).2).
Proof.
  intros Hr w1 history.
  assert (store1 !! sid = Some history) as Hs.
  { revert Hr. unfold conversational_rag_chain_invoke, call.
    destruct (fault _ _); [done|].
    unfold get_session_history, history.
    destruct (store !! sid) as [h|] eqn:Hs; simpl;
      unfold mbind, io_mbind, io_bind;
      (destruct (rag_chain _ _ _) as [[answer|e] w'']; [|done]); simpl;
      intros [= -> <-]; apply lookup_insert_eq. }
  split.
  - unfold get_session_history. by rewrite Hs.
  - intros Hf. by apply wrapper_passes_history.
Qed.

(** ** When the question section opens *)

(** The flag is [True] in [w'] only if it was in [w], or [add_documents]
    was called in between and did not fail. *)
Definition stored_before_ready (w w' : world) : Prop :=
  ∃ t, trace w' = trace w ++ t ∧
       (vector_ready w' = Some true →
        vector_ready w = Some true ∨
        ∃ t0 docs ids,
          (t0 ++ [AddDocuments collection_name docs ids]) `prefix_of` t ∧
          fault (trace w ++ t0) (AddDocuments collection_name docs ids)
          = None).

Global Instance stored_before_ready_preorder : PreOrder stored_before_ready.
Proof.
  split.
  - intros w. exists []. rewrite app_nil_r. auto.
  - intros w1 w2 w3 (t1 & H1 & P1) (t2 & H2 & P2). exists (t1 ++ t2).
    rewrite H2, H1, app_assoc. split; [done|]. intros Hv.
    destruct (P2 Hv) as [Hv2|(t0 & docs & ids & Hp & Hf)].
    + destruct (P1 Hv2) as [?|(t0 & docs & ids & Hp & Hf)]; [by left|].
      right. exists t0, docs, ids. split; [|done].
      by apply prefix_app_r.
    + right. exists (t1 ++ t0), docs, ids. split.
      * rewrite <-app_assoc. by apply prefix_app.
      * by rewrite H1, <-app_assoc in Hf.
Qed.

(** The call of [add_documents] of an upload that returns did not fail. *)
Lemma upload_returned_store_ok (data : list Byte.byte) w :
  (upload_and_process data w).1 = Return tt →
  fault (trace w ++ upload_prelude data)
    (AddDocuments collection_name (docs_of data)
       (draws (length (docs_of data)) (entropy w)).1) = None.
Proof.
  intros Hret.
  pose proof (surjective_pairing (upload_and_process data w)) as Hu.
  rewrite Hret in Hu. apply upload_returns_uploaded in Hu.
  destruct (fault _ _) as [e|] eqn:Hf; [|done].
  destruct (propagates_upload data w) as [_ Hq].
  destruct (Hq (trace w ++ upload_prelude data)
              (AddDocuments collection_name (docs_of data)
                 (draws (length (docs_of data)) (entropy w)).1) e)
    as [Hr _]; [| |exact Hf|congruence].
  - rewrite Hu, uploaded_trace. unfold upload_events.
    by rewrite app_assoc.
  - rewrite length_app. lia.
Qed.

Lemma preserves_stored_before_ready (ui : widgets) :
  preserves stored_before_ready (main ui).
Proof.
  intros w. fold (run ui w).
  destruct (prepared_fields w) as (Ht & He & _ & _ & _ & _ & Hv).
  assert (vector_ready (prepared w) = Some true → vector_ready w = Some true)
    as Hprep.
  { rewrite Hv. destruct (vector_ready w) as [[]|]; by intros [=]. }
  unfold run.
  destruct (run_cases ui w)
    as [[_ Hm]|[(data & _ & _ & Hup & Hm)|(data & t & e & Hr)]].
  - rewrite Hm.
    destruct (chat_part_trace ui (prepared w)) as (tq & Htq & _).
    destruct (chat_part_frame ui (prepared w)) as (Hvq & _).
    exists tq. rewrite Htq, Hvq, Ht. split; [done|]. auto.
  - rewrite Hm.
    destruct (chat_part_trace ui (uploaded data (prepared w)))
      as (tq & Htq & _).
    exists (upload_events data (entropy (prepared w)) ++ tq).
    rewrite Htq, uploaded_trace, Ht, <-app_assoc. split; [done|].
    intros _. right.
    exists (upload_prelude data), (docs_of data),
      (draws (length (docs_of data)) (entropy (prepared w))).1.
    split; [by apply prefix_app_r|].
    rewrite <-Ht. apply upload_returned_store_ok. by rewrite Hup.
  - destruct Hr as (_ & _ & Htr & _ & _ & _ & _ & Hvr).
    unfold run in Htr, Hvr. exists t. rewrite Hvr. auto.
Qed.

(** X13.  Lines 65-66 and 71 over a session.  When the flag is not [True]
    at the start of a session and is [True] at its end, so that the
    question section is shown, the session has called [add_documents] on
    the collection "pdf_store" and that call did not fail. *)
Theorem chat_opens_only_after_a_stored_upload (uis : list widgets)
    (w : world) (t : list event) :
  trace (session uis w) = trace w ++ t →
  vector_ready w ≠ Some true →
  vector_ready (session uis w) = Some true →
  ∃ t0 docs ids,
    (t0 ++ [AddDocuments "pdf_store" docs ids]) `prefix_of` t ∧
    fault (trace w ++ t0) (AddDocuments "pdf_store" docs ids) = None.
Proof.
  intros Ht Hw Hs.
  destruct (session_preserves stored_before_ready
              preserves_stored_before_ready uis w) as (t' & Ht' & Hp).
  rewrite Ht in Ht'. apply app_inv_head in Ht' as <-.
  by destruct (Hp Hs).
Qed.

(** ** The questions of a session *)

(** The transcript after a run: as it was, or with one more turn, the
    question of the run, when "Ask" was clicked on a question that is not
    empty. *)
Lemma run_transcript (ui : widgets) w :
  transcript (run ui w) = transcript w ∨
  (asks ui = true ∧
   ∃ answer,
     transcript (run ui w) = transcript w ++ [(user_question ui, answer)]).
Proof.
  destruct (prepared_fields w) as (_ & _ & _ & _ & Hh & _).
  assert (transcript (prepared w) = transcript w) as Htp
    by (unfold transcript; by rewrite Hh).
  assert (∀ w0 : world,
            transcript (chat_part ui w0).2 = transcript w0 ∨
            (asks ui = true ∧
             ∃ answer,
               transcript (chat_part ui w0).2
               = transcript w0 ++ [(user_question ui, answer)])) as Hchat.
  { intros w0.
    destruct (opened_fields w0) as (_ & _ & _ & _ & _ & _ & Htr & _).
    destruct (chat_cases ui w0)
      as [[_ ->]|[(_ & _ & ->)|[(_ & Ha & _ & ->)
                               |(_ & _ & t & e & _ & _ & ->)]]].
    - by left.
    - left. cbn [snd]. by rewrite transcript_rendered.
    - right. split; [done|].
      exists (ask_answer (user_question ui) (opened w0)).
      cbn [snd]. rewrite transcript_rendered, <-Htr. done.
    - by left. }
  unfold run.
  destruct (run_cases ui w)
    as [[_ Hm]|[(data & _ & _ & _ & Hm)|(data & t & e & Hr)]].
  - rewrite Hm, <-Htp. apply Hchat.
  - rewrite Hm, <-Htp, <-(uploaded_transcript data (prepared w)).
    apply Hchat.
  - left. destruct Hr as (_ & _ & _ & _ & _ & _ & -> & _).
    unfold transcript. by rewrite upload_keeps_history, Hh.
Qed.

(** X14.  Lines 76 and 148 over a session.  The turns a session adds to
    the transcript are, in the order of the runs, questions of runs in
    which "Ask" was clicked on a question that is not empty, at most one
    for each such run: no empty question is recorded, and no run records
    two turns. *)
Theorem session_records_asked_questions_in_order (uis : list widgets)
    (w : world) :
  ∃ new, transcript (session uis w) = transcript w ++ new ∧
         new.*1 `sublist_of`
           (user_question <$> filter (λ ui, asks ui = true) uis) ∧
         length new ≤ length uis ∧
         Forall (λ qa, qa.1 ≠ "") new.
Proof.
  revert w. unfold session.
  induction uis as [|ui uis IH]; intros w.
  - exists []. rewrite app_nil_r. cbn. auto.
  - cbn [foldl]. destruct (IH (run ui w)) as (new & Hn & Hs & Hl & Hq).
    destruct (run_transcript ui w) as [Hr|(Ha & answer & Hr)].
    + exists new. rewrite Hn, Hr. split; [done|]. split; [|split].
      * destruct (decide (asks ui = true)) as [Hy|Hy].
        -- rewrite filter_cons_True by done. rewrite fmap_cons.
           by apply sublist_cons.
        -- by rewrite filter_cons_False by done.
      * cbn [length]. lia.
      * done.
    + exists ((user_question ui, answer) :: new).
      rewrite Hn, Hr, <-app_assoc. split; [done|]. split; [|split].
      * rewrite filter_cons_True by done. rewrite !fmap_cons.
        by apply sublist_skip.
      * cbn [length]. lia.
      * apply Forall_cons. split; [|done]. cbn.
        unfold asks in Ha. apply andb_true_iff in Ha as [_ Hne].
        intros Heq. rewrite Heq in Hne. done.
Qed.

(** ** Runs in which nothing is asked of the script *)

Lemma opened_history w : chat_history (opened w) = Some (transcript w).
Proof.
  unfold opened, transcript. case_bool_decide as Hh; fields.
  - by rewrite Hh.
  - by destruct (chat_history w).
Qed.

(** The run of a page on which no upload and no question starts. *)
Lemma quiet_run (ui : widgets) w :
  uploads ui = false → asks ui = false →
  (main ui w).1 = Return tt ∧
  run ui w
  = if chat_enabled w then rendered (opened (prepared w))
    else set_screen [please_upload] (prepared w).
Proof.
  intros Hu Ha.
  destruct (prepared_fields w) as (_ & _ & _ & _ & _ & Hs & Hv).
  assert (chat_enabled (prepared w) = chat_enabled w) as He.
  { unfold chat_enabled. rewrite Hv.
    destruct (vector_ready w) as [[]|]; done. }
  unfold run.
  destruct (run_cases ui w)
    as [[_ Hm]|[(data & Hu' & _)|(data & t & e & Hu' & _)]];
    [|congruence..].
  rewrite Hm, <-He.
  destruct (chat_cases ui (prepared w))
    as [[Hd ->]|[(Hd & _ & ->)|[(_ & Ha' & _)|(_ & Ha' & _)]]];
    [| |congruence..]; rewrite Hd; cbn [fst snd]; [|done].
  by rewrite Hs.
Qed.

Lemma chat_enabled_default w :
  bool_decide (Some (default false (vector_ready w)) = Some true)
  = chat_enabled w.
Proof. unfold chat_enabled. by destruct (vector_ready w) as [[]|]. Qed.

Lemma quiet_run_fields (ui : widgets) w :
  uploads ui = false → asks ui = false →
  (main ui w).1 = Return tt ∧
  trace (run ui w) = trace w ∧
  files (run ui w) = files w ∧
  pdf_store (run ui w) = pdf_store w ∧
  entropy (run ui w) = entropy w ∧
  vector_ready (run ui w) = Some (default false (vector_ready w)) ∧
  chat_history (run ui w)
  = (if chat_enabled w then Some (transcript w) else chat_history w) ∧
  screen (run ui w)
  = (if chat_enabled w then render_lines (transcript w)
     else [please_upload]).
Proof.
  intros Hu Ha. destruct (quiet_run ui w Hu Ha) as [Hr Hw].
  destruct (prepared_fields w) as (Ht & Hen & Hf & Hst & Hh & Hs & Hv).
  destruct (opened_fields (prepared w))
    as (Hto & Heo & Hfo & Hso & Hvo & Hsco & Htro & _).
  assert (transcript (prepared w) = transcript w) as Htp
    by (unfold transcript; by rewrite Hh).
  split; [done|]. rewrite Hw.
  destruct (chat_enabled w); unfold rendered; fields.
  - rewrite Hto, Hfo, Hso, Heo, Hvo, Hsco, Htro, opened_history.
    by rewrite Ht, Hf, Hst, Hen, Hv, Hs, Htp.
  - by rewrite Ht, Hf, Hst, Hen, Hv, Hh.
Qed.

(** X15.  A run in which no upload starts (the button was not clicked or
    no file is chosen) and no question is asked ("Ask" was not clicked or
    the box is empty) returns, makes no call and leaves the files, the
    collection, the generator and the transcript as they are; and running
    the script again in the same way changes nothing at all: the page is
    drawn again as it was. *)
Theorem rerun_without_clicks_changes_nothing (ui ui' : widgets) (w : world) :
  uploads ui = false → asks ui = false →
  uploads ui' = false → asks ui' = false →
  (main ui w).1 = Return tt ∧
  trace (run ui w) = trace w ∧
  files (run ui w) = files w ∧
  pdf_store (run ui w) = pdf_store w ∧
  entropy (run ui w) = entropy w ∧
  transcript (run ui w) = transcript w ∧
  run ui' (run ui w) = run ui w.
Proof.
  intros Hu Ha Hu' Ha'.
  destruct (quiet_run_fields ui w Hu Ha)
    as (Hr & Ht & Hf & Hs & He & Hv & Hh & Hsc).
  destruct (quiet_run_fields ui' (run ui w) Hu' Ha')
    as (_ & Ht' & Hf' & Hs' & He' & Hv' & Hh' & Hsc').
  assert (chat_enabled (run ui w) = chat_enabled w) as Hen
    by (unfold chat_enabled at 1; rewrite Hv; apply chat_enabled_default).
  assert (transcript (run ui w) = transcript w) as Htr.
  { unfold transcript at 1. rewrite Hh. by destruct (chat_enabled w). }
  do 6 (split; [done|]).
  apply world_eq; try done.
  - rewrite Hv', Hv. done.
  - rewrite Hh', Hen, Htr, Hh. by destruct (chat_enabled w).
  - rewrite Hsc', Hen, Htr, Hsc. done.
Qed.

End RunCases.

(** * The rest of the script on concrete runs *)

(** A file is uploaded and a question asked in the same run. *)
Definition click_both (data : list Byte.byte) (question : string) : widgets :=
  {| pdf_file := Some data; upload_clicked := true;
     user_question := question; ask_clicked := true |}.

(** The process of the examples after the upload of [two_pages]. *)
Definition stored_world : @world (demo no_fault) :=
  run (click_upload two_pages) demo_world.

Lemma upload_needs_click_and_file_witness :
  upload_clicked (click_ask two_pages first_question) = false ∧
  files (run (click_ask two_pages first_question) stored_world)
  = files stored_world ∧
  pdf_store (run (click_ask two_pages first_question) stored_world)
  = pdf_store stored_world.
Proof.
  assert (upload_clicked (click_ask two_pages first_question) = false) as H1
    by reflexivity.
  pose proof (upload_needs_click_and_file
                (click_ask two_pages first_question) stored_world
                (or_introl H1)) as (Hf & Hs & _).
  split; [exact H1|]. split; [exact Hf|exact Hs].
Defined.

Lemma chain_needs_flag_click_and_question_witness :
  RunnableInvoke "abc123" first_question
  ∈ trace (run (click_both two_pages first_question) demo_world) ∧
  vector_ready demo_world = None ∧
  (upload_and_process two_pages (prepared demo_world)).1 = Return tt ∧
  first_question ≠ "".
Proof.
  assert (trace (run (click_both two_pages first_question) demo_world)
          = trace demo_world
            ++ trace (run (click_both two_pages first_question) demo_world))
    as H1 by (vm_compute; reflexivity).
  assert (RunnableInvoke "abc123" first_question
          ∈ trace (run (click_both two_pages first_question) demo_world))
    as H2 by (vm_compute; in_list).
  assert ((upload_and_process two_pages (prepared demo_world)).1 = Return tt)
    as H3 by (vm_compute; reflexivity).
  pose proof (chain_needs_flag_click_and_question
                (click_both two_pages first_question) demo_world _ _ _ H1 H2)
    as (_ & _ & Hne & _).
  split; [exact H2|]. split; [reflexivity|]. split; [exact H3|exact Hne].
Defined.

Lemma messages_of_a_run_witness :
  (main (click_both two_pages first_question) demo_world).1 = Return tt ∧
  screen (run (click_both two_pages first_question) demo_world)
  = ["PDF Processed and Stored!";
     "**You:** What is Rocq?"; "**Bot:** I don't know."].
Proof.
  assert ((main (click_both two_pages first_question) demo_world).1
          = Return tt) as H1 by (vm_compute; reflexivity).
  split; [exact H1|].
  rewrite (messages_of_a_run _ _ H1). vm_compute. reflexivity.
Defined.

Lemma collection_changes_only_by_add_documents_witness :
  trace (session [click_ask two_pages first_question] stored_world)
  = trace stored_world ++ ask_events first_question stored_world ∧
  pdf_store (session [click_ask two_pages first_question] stored_world)
  = pdf_store stored_world.
Proof.
  assert (trace (session [click_ask two_pages first_question] stored_world)
          = trace stored_world ++ ask_events first_question stored_world)
    as H1 by (vm_compute; reflexivity).
  assert (∀ c docs ids,
            AddDocuments c docs ids
            ∉ ask_events first_question stored_world) as H2
    by (intros c docs ids Hin; exact (in_ask_events _ _ _ Hin)).
  split; [exact H1|].
  exact (collection_changes_only_by_add_documents _ _ _ H1 H2).
Defined.

Lemma collection_never_loses_an_identifier_witness :
  pdf_store stored_world !! "0" = Some ("Rocq is a proof assistant.", 26) ∧
  is_Some (pdf_store (session [click_upload one_word;
                               click_ask one_word first_question]
                        stored_world) !! "0").
Proof.
  assert (pdf_store stored_world !! "0"
          = Some ("Rocq is a proof assistant.", 26)) as H1
    by (vm_compute; reflexivity).
  split; [exact H1|].
  exact (@collection_never_loses_an_identifier (demo no_fault) _
           stored_world "0" (mk_is_Some _ _ H1)).
Defined.

Lemma question_is_answered_from_the_collection_witness :
  (ask first_question stored_world).1
  = Return {["abc123" := [HumanMessage first_question;
                          AIMessage "I don't know."]]} ∧
  chat_history (ask first_question stored_world).2
  = Some (transcript stored_world ++ [(first_question, "I don't know.")]) ∧
  pdf_store (ask first_question stored_world).2 = pdf_store stored_world.
Proof.
  assert ((ask first_question stored_world).1
          = Return {["abc123" := [HumanMessage first_question;
                                  AIMessage "I don't know."]]}) as H1
    by (vm_compute; reflexivity).
  pose proof (question_is_answered_from_the_collection _ _ _ H1)
    as (_ & Hh & _ & _ & Hs & _).
  split; [exact H1|]. split; [exact Hh|exact Hs].
Defined.

Lemma uploaded_chunk_is_found_under_its_identifier_witness :
  (upload_and_process two_pages demo_world).1 = Return tt ∧
  NoDup (@draws (demo no_fault)
           (length (@texts_of (demo no_fault) two_pages)) 0).1 ∧
  (@draws (demo no_fault)
     (length (@texts_of (demo no_fault) two_pages)) 0).1 !! 1 = Some "1" ∧
  @texts_of (demo no_fault) two_pages !! 1 = Some "It checks proofs." ∧
  pdf_store (upload_and_process two_pages demo_world).2 !! "1"
  = Some ("It checks proofs.", @embed (demo no_fault) "It checks proofs.").
Proof.
  assert ((upload_and_process two_pages demo_world).1 = Return tt) as H1
    by (vm_compute; reflexivity).
  assert (NoDup (@draws (demo no_fault)
                   (length (@texts_of (demo no_fault) two_pages)) 0).1) as H2
    by (refine (bool_decide_unpack _ _); vm_compute; exact I).
  assert ((@draws (demo no_fault)
             (length (@texts_of (demo no_fault) two_pages)) 0).1 !! 1
          = Some "1") as H3 by (vm_compute; reflexivity).
  assert (@texts_of (demo no_fault) two_pages !! 1
          = Some "It checks proofs.") as H4 by (vm_compute; reflexivity).
  pose proof (uploaded_chunk_is_found_under_its_identifier
                two_pages demo_world 1 "1" "It checks proofs." H1 H2 H3 H4)
    as [Hl _].
  split; [exact H1|]. split; [exact H2|]. split; [exact H3|].
  split; [exact H4|exact Hl].
Defined.

Lemma upload_without_text_enables_chat_witness :
  @texts_of (demo no_fault) [] = [] ∧
  (upload_and_process [] demo_world).1 = Return tt ∧
  pdf_store (upload_and_process [] demo_world).2 = pdf_store demo_world ∧
  chat_enabled (upload_and_process [] demo_world).2 = true.
Proof.
  assert (@texts_of (demo no_fault) [] = []) as H1
    by (vm_compute; reflexivity).
  assert ((upload_and_process [] demo_world).1 = Return tt) as H2
    by (vm_compute; reflexivity).
  pose proof (upload_without_text_enables_chat [] demo_world H1 H2)
    as (_ & Hs & _ & He).
  split; [exact H1|]. split; [exact H2|]. split; [exact Hs|exact He].
Defined.

Lemma model_is_never_asked_to_rewrite_a_question_witness :
  ChatCompletion chat_model (ask_prompt second_question
                               (session one_turn demo_world))
  ∈ trace (session two_turns demo_world) ∧
  SystemMessage contextualize_q_system_prompt
  ∉ ask_prompt second_question (session one_turn demo_world).
Proof.
  assert (trace (session two_turns demo_world)
          = trace demo_world ++ trace (session two_turns demo_world)) as H1
    by (vm_compute; reflexivity).
  assert (ChatCompletion chat_model
            (ask_prompt second_question (session one_turn demo_world))
          ∈ trace (session two_turns demo_world)) as H2
    by (vm_compute; in_list).
  pose proof (model_is_never_asked_to_rewrite_a_question
                two_turns demo_world _ _ _ H1 H2) as (_ & _ & Hno).
  split; [exact H2|exact Hno].
Defined.

Lemma kept_store_gives_the_chain_its_history_witness :
  (conversational_rag_chain_invoke ∅ first_question "abc123"
     stored_world).1
  = Return ("I don't know.",
            {["abc123" := [HumanMessage first_question;
                           AIMessage "I don't know."]]}) ∧
  get_session_history "abc123"
    ({["abc123" := [HumanMessage first_question;
                    AIMessage "I don't know."]]}
     : gmap string (list message))
  = ({["abc123" := [HumanMessage first_question;
                    AIMessage "I don't know."]]},
     [HumanMessage first_question; AIMessage "I don't know."]) ∧
  RagChain second_question
    [HumanMessage first_question; AIMessage "I don't know."]
  ∈ trace (conversational_rag_chain_invoke
             {["abc123" := [HumanMessage first_question;
                            AIMessage "I don't know."]]}
             second_question "abc123"
             (conversational_rag_chain_invoke ∅ first_question "abc123"
                stored_world).2).2.
Proof.
  assert ((conversational_rag_chain_invoke ∅ first_question "abc123"
             stored_world).1
          = Return ("I don't know.",
                    {["abc123" := [HumanMessage first_question;
                                   AIMessage "I don't know."]]})) as H1
    by (vm_compute; reflexivity).
  pose proof (kept_store_gives_the_chain_its_history
                _ _ _ _ _ second_question _ H1) as [Hg Hp].
  split; [exact H1|]. split; [exact Hg|].
  destruct (Hp eq_refl) as [rest ->].
  rewrite !elem_of_app, !elem_of_cons. auto.
Defined.

(** "Ask" is clicked on an empty question box. *)
Definition click_ask_nothing : widgets :=
  {| pdf_file := Some two_pages; upload_clicked := false;
     user_question := ""; ask_clicked := true |}.

Lemma rerun_without_clicks_changes_nothing_witness :
  uploads click_ask_nothing = false ∧
  asks click_ask_nothing = false ∧
  trace (run click_ask_nothing stored_world) = trace stored_world ∧
  run click_ask_nothing (run click_ask_nothing stored_world)
  = run click_ask_nothing stored_world.
Proof.
  assert (uploads click_ask_nothing = false) as H1 by reflexivity.
  assert (asks click_ask_nothing = false) as H2 by reflexivity.
  pose proof (rerun_without_clicks_changes_nothing
                click_ask_nothing click_ask_nothing stored_world
                H1 H2 H1 H2) as (_ & Ht & _ & _ & _ & _ & Hi).
  split; [exact H1|]. split; [exact H2|]. split; [exact Ht|exact Hi].
Defined.

Lemma chat_opens_only_after_a_stored_upload_witness :
  vector_ready demo_world ≠ Some true ∧
  vector_ready (session one_turn demo_world) = Some true ∧
  ∃ t0 docs ids,
    (t0 ++ [AddDocuments "pdf_store" docs ids])
    `prefix_of` trace (session one_turn demo_world) ∧
    @fault (demo no_fault) (trace demo_world ++ t0)
      (AddDocuments "pdf_store" docs ids) = None.
Proof.
  assert (trace (session one_turn demo_world)
          = trace demo_world ++ trace (session one_turn demo_world)) as H1
    by (vm_compute; reflexivity).
  assert (vector_ready demo_world ≠ Some true) as H2 by discriminate.
  assert (vector_ready (session one_turn demo_world) = Some true) as H3
    by (vm_compute; reflexivity).
  split; [exact H2|]. split; [exact H3|].
  exact (chat_opens_only_after_a_stored_upload _ _ _ H1 H2 H3).
Defined.
